(** * vanilla-slider: the gesture-to-motion state machine

    A shallow embedding of [src/util.js] (geometry helpers), of the
    [Slider] class that measures [el.parentElement] and of its page-width
    copy that measures [document.body], with the properties the
    specification states about them and further properties of the code.

    Numbers.  In the model of the slider, JavaScript numbers that stand
    for pixels (pointer coordinates, widths, translations) are exact
    rationals [Q]; slide indices and the step decision are integers [Z].
    [===] on pixel values is [Qeq_bool], so [1/2] and [2/4] are the same
    pixel value; statements about pixel values use [==] where the code
    computes them by different routes.  The decision of [changeSlide],
    which turns on how a product and a difference are rounded, is also
    given on IEEE 754 binary64 numbers, as the program computes it. *)

From Stdlib Require Import ZArith QArith Qabs List Bool String Lia Lqa.
From Stdlib Require Floats.
Import ListNotations.

Open Scope Z_scope.

(** ** Host objects *)

(** [getBoundingClientRect()] of an element: only [width] is read. *)
Record DOMRect : Type := { width : Q }.

(** An element whose box is measured ([el.parentElement]). *)
Record HostElement : Type := { getBoundingClientRect : DOMRect }.

(** A slide: a child node of the container, known by its identity. *)
Inductive Element : Type := Node (id : nat).

(** ** src/util.js *)

Module Util.

(** [a < b] on pixel values. *)
Definition Qlt_bool (a b : Q) : bool := negb (Qle_bool b a).

(** [diffCoords]: how far the pointer moved from [a] to [b]. *)
Definition diffCoords (a b : Q * Q) : Q * Q :=
  (((fst a - fst b) * (-1 # 1))%Q, ((snd a - snd b) * (-1 # 1))%Q).

(** [originForIndex]: the X value that brings slide [n] into view. *)
Definition originForIndex (n : Z) (parentElement : HostElement) : Q :=
  if n =? 0 then 0%Q
  else
    let totalWidth := width (getBoundingClientRect parentElement) in
    ((-1 # 1) * totalWidth * inject_Z n)%Q.

(** [changeSlide], with its local constant [toleranceFr] taken as an
    argument: the two copies of the function in the repository differ
    in that constant only. *)
Definition changeSlideWith (toleranceFr : Q) (xDiff : Q)
           (parentElement : HostElement) : Z :=
  if Qeq_bool xDiff 0 then 0
  else
    let isNegative := Qlt_bool xDiff 0 in
    let totalWidth := width (getBoundingClientRect parentElement) in
    let tolerance := (totalWidth * toleranceFr)%Q in
    let overTolerance := Qle_bool (tolerance - Qabs xDiff) 0 in
    if negb overTolerance then 0
    else if isNegative then 1 else -1.

(** [const toleranceFr = 0.33] *)
Definition toleranceFr : Q := 33 # 100.

(** [changeSlide] of [src/util.js]: go back (-1), stay (0), move
    ahead (1). *)
Definition changeSlide (xDiff : Q) (parentElement : HostElement) : Z :=
  changeSlideWith toleranceFr xDiff parentElement.

(** The copy inside the page-width slider: [const toleranceFr = 0.15],
    measured on [document.body]. *)
Definition changeSlide_body (xDiff : Q) (body : HostElement) : Z :=
  changeSlideWith (15 # 100) xDiff body.

End Util.

(** ** src/util.js on binary64 numbers

    [changeSlide] as JavaScript evaluates it: every number is an IEEE 754
    double, [*] and [-] round to nearest, [===], [<] and [<=] are the
    IEEE comparisons (false on NaN, and [0 === -0]). *)

Module Binary64.

Import PrimFloat.

(** [getBoundingClientRect()] of an element, and the element. *)
Record DOMRect : Type := { width : float }.

Record HostElement : Type := { getBoundingClientRect : DOMRect }.

(** [changeSlide], with its local constant [toleranceFr] taken as an
    argument. *)
Definition changeSlideWith (toleranceFr : float) (xDiff : float)
           (parentElement : HostElement) : Z :=
  if (xDiff =? 0)%float then 0
  else
    let isNegative := (xDiff <? 0)%float in
    let totalWidth := width (getBoundingClientRect parentElement) in
    let tolerance := (totalWidth * toleranceFr)%float in
    let overTolerance := (tolerance - abs xDiff <=? 0)%float in
    if negb overTolerance then 0
    else if isNegative then 1 else -1.

(** [const toleranceFr = 0.33]: the double nearest to 0.33. *)
#[warnings="-inexact-float"] Definition toleranceFr : float := 0.33%float.

(** [changeSlide] of [src/util.js]. *)
Definition changeSlide (xDiff : float) (parentElement : HostElement) : Z :=
  changeSlideWith toleranceFr xDiff parentElement.

(** A drag of -0.99px, the double nearest to it, and a parent 3px wide:
    the product [3 * 0.33] rounds to the very double that is nearest to
    0.99. *)
#[warnings="-inexact-float"] Definition dragOnTheBoundary : float := (-0.99)%float.

Definition parent3 : HostElement :=
  {| getBoundingClientRect := {| width := 3%float |} |}.

End Binary64.

(** The least exponent of binary64. *)
Abbreviation emin64 := (SpecFloat.emin FloatOps.prec FloatOps.emax).

(** A binary64 value that carries the sign [s] and is neither a zero nor
    NaN. *)
Definition signed (s : bool) (x : SpecFloat.spec_float) : Prop :=
  (exists m e, x = SpecFloat.S754_finite s m e) \/ x = SpecFloat.S754_infinity s.

(** Componentwise equality of pixel pairs. *)
Definition Qeq2 (p q : Q * Q) : Prop :=
  (fst p == fst q)%Q /\ (snd p == snd q)%Q.

(** Componentwise negation of a pixel pair. *)
Definition Qopp2 (p : Q * Q) : Q * Q := ((- fst p)%Q, (- snd p)%Q).

(** ** The Slider class *)

(** The container [el] handed to the constructor: its child slides and
    the parent element whose width is the width of one slide. *)
Record Container : Type := {
  children : list Element;
  parentElement : HostElement
}.

(** [this.state] *)
Record SliderState : Type := {
  slidesCount : Z;
  active : Z;      (* index of the slide that is in view *)
  diffX : Q        (* how far the track has been dragged from its origin *)
}.

(** Payloads of [this.emit(name, payload)]; [None] is [undefined]. *)
Inductive Notification : Type :=
| Init (element : option Element) (index : Z)
| Change (index : Z) (element : option Element)
| Touch (index : Z) (slides : list Element) (element : option Element).

(** What a class or a style is set on. *)
Inductive Target : Type :=
| Track                     (* [this.el] *)
| Slide (e : Element).

(** Everything a method asks of its collaborators, in program order. *)
Inductive Effect : Type :=
| Emit (n : Notification)
| StyleWidth (slide : Element) (px : Q)
| SetClass (on : Target) (className : string) (add : bool)
| Transform (by_px : Q)      (* [el.style.transform = translateX(by px)] *)
| SetTimeout (ms : Z).

(** A Slider instance together with the closure variable [touchOrigin]
    of its handlers, the callbacks it has scheduled and not yet run, and
    the effects it has requested so far. *)
Record Slider : Type := {
  el : Container;
  touchDown : bool;
  state : SliderState;
  touchOrigin : Q * Q;
  timers : nat;
  trace : list Effect
}.

(** A pointer event as the handlers read it: a touch event with its
    first touch point, or a mouse event. *)
Inductive UIEvent : Type :=
| TouchEvent (touch0 : Q * Q) (others : list (Q * Q))
| MouseEvent (clientX clientY : Q).

(** How a call completes: normally with a value, or by throwing. *)
Inductive Completion (A : Type) : Type :=
| Normal (value : A)
| Throw (name : string).
Arguments Normal {A} value.
Arguments Throw {A} name.

Module Slider_.

Import Util.

(** *** Assignments to fields *)

Definition set_touchDown (b : bool) (this : Slider) : Slider :=
  {| el := el this; touchDown := b; state := state this;
     touchOrigin := touchOrigin this; timers := timers this;
     trace := trace this |}.

Definition set_active (n : Z) (this : Slider) : Slider :=
  {| el := el this; touchDown := touchDown this;
     state := {| slidesCount := slidesCount (state this); active := n;
                 diffX := diffX (state this) |};
     touchOrigin := touchOrigin this; timers := timers this;
     trace := trace this |}.

Definition set_diffX (d : Q) (this : Slider) : Slider :=
  {| el := el this; touchDown := touchDown this;
     state := {| slidesCount := slidesCount (state this);
                 active := active (state this); diffX := d |};
     touchOrigin := touchOrigin this; timers := timers this;
     trace := trace this |}.

Definition set_touchOrigin (o : Q * Q) (this : Slider) : Slider :=
  {| el := el this; touchDown := touchDown this; state := state this;
     touchOrigin := o; timers := timers this; trace := trace this |}.

Definition set_timers (k : nat) (this : Slider) : Slider :=
  {| el := el this; touchDown := touchDown this; state := state this;
     touchOrigin := touchOrigin this; timers := k; trace := trace this |}.

Definition set_parentElement (p : HostElement) (this : Slider) : Slider :=
  {| el := {| children := children (el this); parentElement := p |};
     touchDown := touchDown this; state := state this;
     touchOrigin := touchOrigin this; timers := timers this;
     trace := trace this |}.

(** Requests made of collaborators are appended to the trace. *)
Definition request (es : list Effect) (this : Slider) : Slider :=
  {| el := el this; touchDown := touchDown this; state := state this;
     touchOrigin := touchOrigin this; timers := timers this;
     trace := trace this ++ es |}.

(** Statements in sequence. *)
Definition seq (f g : Slider -> Slider) : Slider -> Slider :=
  fun this => g (f this).
Notation "f ;; g" := (seq f g) (at level 61, right associativity).

(** [children[n]]: [undefined] outside the collection. *)
Definition item (l : list Element) (n : Z) : option Element :=
  if n <? 0 then None else nth_error l (Z.to_nat n).

(** *** Methods *)

Definition emit (n : Notification) : Slider -> Slider :=
  request [Emit n].

(** [updateIndex(n)]: safely update the active state without going
    outside the limits. *)
Definition updateIndex (n : Z) : Slider -> Slider :=
  fun this =>
    if (n <? 0) || (n >=? slidesCount (state this)) then this
    else
      (set_active n ;;
       emit (Change n (item (children (el this)) n))) this.

Definition _setSlideWidths : Slider -> Slider :=
  fun this =>
    let parentWidth :=
      width (getBoundingClientRect (parentElement (el this))) in
    request (map (fun slide => StyleWidth slide parentWidth)
                 (children (el this))) this.

(** [addRemoveCssClass(el, className, add)] of [src/util.js]. *)
Definition addRemoveCssClass (on : Target) (className : string)
           (add : bool) : Effect :=
  SetClass on className add.

Definition _cssTouchClass (add : bool) : Slider -> Slider :=
  request [addRemoveCssClass Track "touch" add].

(** The body of the [forEach] of [_cssActiveClass], from position [i]. *)
Fixpoint cssActiveClass_each (index i : Z) (slides : list Element)
  : list Effect :=
  match slides with
  | [] => []
  | e :: rest =>
      (if index =? i
       then [addRemoveCssClass (Slide e) "not-in-view" false;
             addRemoveCssClass (Slide e) "in-view" true]
       else [addRemoveCssClass (Slide e) "not-in-view" true;
             addRemoveCssClass (Slide e) "in-view" false])
        ++ cssActiveClass_each index (i + 1) rest
  end.

Definition _cssActiveClass (index : Z) : Slider -> Slider :=
  fun this =>
    if touchDown this then this
    else request (cssActiveClass_each index 0 (children (el this))) this.

Definition _translateSlide (by_px : Q) : Slider -> Slider :=
  request [Transform by_px].

Definition _translateFromOrigin (index : Z) (by_px : Q) : Slider -> Slider :=
  fun this =>
    let originX := originForIndex index (parentElement (el this)) in
    _translateSlide (by_px + originX)%Q this.

Definition _returnToOrigin : Slider -> Slider :=
  fun this =>
    let active_ := active (state this) in
    let origin := originForIndex active_ (parentElement (el this)) in
    _translateSlide origin this.

(** [setTimeout(callback, ms)]: one more callback is pending. *)
Definition setTimeout (ms : Z) : Slider -> Slider :=
  fun this => request [SetTimeout ms] (set_timers (S (timers this)) this).

(** *** Event handlers *)

(** [event.touches ? [touches[0].clientX, touches[0].clientY]
                   : [event.clientX, event.clientY]] *)
Definition coords (event : UIEvent) : Q * Q :=
  match event with
  | TouchEvent touch0 _ => touch0
  | MouseEvent x y => (x, y)
  end.

Definition handleTouchStart (event : UIEvent) : Slider -> Slider :=
  set_touchDown true ;;
  set_touchOrigin (coords event) ;;
  _cssTouchClass true ;;
  (fun this =>
     emit (Touch (active (state this)) (children (el this))
                 (item (children (el this)) (active (state this)))) this).

Definition handleTouchEnd : Slider -> Slider :=
  (fun this =>
     let changeWeight :=
       changeSlide (diffX (state this)) (parentElement (el this)) in
     updateIndex (active (state this) + changeWeight) this) ;;
  _cssTouchClass false ;;
  _returnToOrigin ;;
  setTimeout (300 + 100) ;;
  set_touchDown false ;;
  set_diffX 0.

Definition handleTouchMove (event : UIEvent) : Slider -> Slider :=
  fun this =>
    if negb (touchDown this) then this
    else
      let movedTo := coords event in
      let diffX_ := fst (diffCoords (touchOrigin this) movedTo) in
      let this := set_diffX diffX_ this in
      if Qeq_bool diffX_ 0 then this
      else _translateFromOrigin (active (state this)) diffX_ this.

Definition handleResize : Slider -> Slider := _setSlideWidths.

(** The callback scheduled by [handleTouchEnd]. *)
Definition timerCallback : Slider -> Slider :=
  fun this => _cssActiveClass (active (state this)) this.

(** *** Constructor *)

(** The body of [constructor(el)].  [_attachMoveEvents] and
    [_attachWindowEvents] only register the handlers above ([touchOrigin]
    starts as [[0, 0]]); what they make possible is the type [Op] below. *)
Definition constructor (el_ : Container) : Slider :=
  (_setSlideWidths ;;
   _cssActiveClass 0 ;;
   updateIndex 0 ;;
   emit (Init (item (children el_) 0) 0))
    {| el := el_;
       touchDown := false;
       state := {| slidesCount := Z.of_nat (List.length (children el_));
                   active := 0;
                   diffX := 0 |};
       touchOrigin := (0%Q, 0%Q);
       timers := 0;
       trace := [] |}.

(** [new Slider(el)].  The constructor has no [throw] and reads only
    properties of the container it is given, so it completes normally. *)
Definition new (el_ : Container) : Completion Slider :=
  Normal (constructor el_).

(** *** The instance as a state machine *)

(** What can happen to an instance after construction: a call of the
    public [updateIndex], the three pointer handlers, a window resize
    (the parent is measured anew) and a scheduled callback coming due. *)
Inductive Op : Type :=
| UpdateIndex (n : Z)
| TouchStart (event : UIEvent)
| TouchMove (event : UIEvent)
| TouchEnd
| Resize (parent : HostElement)
| TimerDue.

Definition step (op : Op) : Slider -> Slider :=
  match op with
  | UpdateIndex n => updateIndex n
  | TouchStart event => handleTouchStart event
  | TouchMove event => handleTouchMove event
  | TouchEnd => handleTouchEnd
  | Resize parent => set_parentElement parent ;; handleResize
  | TimerDue =>
      fun this =>
        match timers this with
        | O => this
        | S k => timerCallback (set_timers k this)
        end
  end.

Definition run (ops : list Op) (this : Slider) : Slider :=
  fold_left (fun s op => step op s) ops this.

(** The index an operation hands to [updateIndex], if it calls it. *)
Definition requestedIndex (op : Op) (this : Slider) : option Z :=
  match op with
  | UpdateIndex n => Some n
  | TouchEnd =>
      Some (active (state this)
            + changeSlide (diffX (state this)) (parentElement (el this)))
  | _ => None
  end.

(** *** Observations on the trace *)

(** The [change] notifications of a trace, oldest first. *)
Fixpoint changes (tr : list Effect) : list (Z * option Element) :=
  match tr with
  | [] => []
  | Emit (Change index element) :: rest => (index, element) :: changes rest
  | _ :: rest => changes rest
  end.

(** The translations requested in a trace, oldest first. *)
Fixpoint translations (tr : list Effect) : list Q :=
  match tr with
  | [] => []
  | Transform by_px :: rest => by_px :: translations rest
  | _ :: rest => translations rest
  end.

(** The value of [el.style.transform] after a trace. *)
Definition styleTransform (tr : list Effect) : option Q :=
  last (map Some (translations tr)) None.

(** [0 <= active < slidesCount] *)
Definition inBounds (this : Slider) : Prop :=
  0 <= active (state this) < slidesCount (state this).

End Slider_.

Import Slider_.

(** Sample containers: a 300px-wide parent with three slides, and one
    with none. *)
Definition parent300 : HostElement :=
  {| getBoundingClientRect := {| width := 300 # 1 |} |}.

Definition threeSlides : Container :=
  {| children := [Node 0; Node 1; Node 2]; parentElement := parent300 |}.

Definition noSlides : Container :=
  {| children := []; parentElement := parent300 |}.

(** ** Gestures and their vertical coordinate *)

(** Two instances that differ at most in the y-coordinate of the
    recorded gesture origin. *)
Definition sameButY (s s' : Slider) : Prop :=
  el s = el s' /\ touchDown s = touchDown s' /\ state s = state s' /\
  fst (touchOrigin s) = fst (touchOrigin s') /\
  timers s = timers s' /\ trace s = trace s'.

(** Two events with the same x-coordinate. *)
Definition sameX (e e' : UIEvent) : Prop :=
  fst (coords e) = fst (coords e').

(** A gesture up to its end: the start and the samples that follow. *)
Definition gesture (start : UIEvent) (moves : list UIEvent) : list Op :=
  TouchStart start :: map TouchMove moves.

(** The targets a trace adds the class [className] to, oldest first. *)
Fixpoint classAdded (className : string) (tr : list Effect) : list Target :=
  match tr with
  | [] => []
  | SetClass on name true :: rest =>
      if String.eqb name className then on :: classAdded className rest
      else classAdded className rest
  | _ :: rest => classAdded className rest
  end.

(** The targets a trace removes the class [className] from, oldest
    first. *)
Fixpoint classRemoved (className : string) (tr : list Effect) : list Target :=
  match tr with
  | [] => []
  | SetClass on name false :: rest =>
      if String.eqb name className then on :: classRemoved className rest
      else classRemoved className rest
  | _ :: rest => classRemoved className rest
  end.

(** The slides other than the one at position [index], in order; all of
    them when [index] is not a position. *)
Fixpoint withoutIndex (index : Z) (slides : list Element) : list Element :=
  match slides with
  | [] => []
  | e :: rest =>
      if index =? 0 then rest else e :: withoutIndex (index - 1) rest
  end.

(** The [touch] notifications of a trace, oldest first. *)
Fixpoint touches (tr : list Effect)
  : list (Z * list Element * option Element) :=
  match tr with
  | [] => []
  | Emit (Touch index slides element) :: rest =>
      (index, slides, element) :: touches rest
  | _ :: rest => touches rest
  end.

(** The [change] notification of one call of [updateIndex]. *)
Definition changeOf (n : Z) (this : Slider) : list (Z * option Element) :=
  if (n <? 0) || (n >=? slidesCount (state this)) then []
  else [(n, item (children (el this)) n)].

(** While no gesture is in progress nothing is dragged. *)
Definition idleClean (this : Slider) : Prop :=
  touchDown this = false -> diffX (state this) = 0%Q.

(** A [change] notification that names a slide of [slides] by its index. *)
Definition namesSlide (slides : list Element) (c : Z * option Element) : Prop :=
  0 <= fst c < Z.of_nat (List.length slides) /\
  exists slide, snd c = Some slide /\
                nth_error slides (Z.to_nat (fst c)) = Some slide.

(** ** The page-width Slider

    The second [Slider] class of the repository.  It carries its own
    copies of the helpers, which measure [document.body] instead of
    [el.parentElement] and use the tolerance [0.15]; its handlers read
    [event.clientX] and [event.clientY] only, so they are modelled on
    events that have them (mouse events).  Methods whose text is the same
    in both classes are those of [Slider_]. *)

Module BodySlider.

Section Document.

(** [document.body], as measured when the method runs. *)
Variable document_body : HostElement.

(** The copies of the helpers. *)
Definition diffCoords (a b : Q * Q) : Q * Q :=
  (((fst a - fst b) * (-1 # 1))%Q, ((snd a - snd b) * (-1 # 1))%Q).

Definition originForIndex (n : Z) : Q :=
  if n =? 0 then 0%Q
  else
    let totalWidth := width (getBoundingClientRect document_body) in
    ((-1 # 1) * totalWidth * inject_Z n)%Q.

Definition changeSlide (xDiff : Q) : Z :=
  if Qeq_bool xDiff 0 then 0
  else
    let isNegative := Util.Qlt_bool xDiff 0 in
    let toleranceFr := (15 # 100)%Q in
    let totalWidth := width (getBoundingClientRect document_body) in
    let tolerance := (totalWidth * toleranceFr)%Q in
    let overTolerance := Qle_bool (tolerance - Qabs xDiff) 0 in
    if negb overTolerance then 0
    else if isNegative then 1 else -1.

Definition _setSlideWidths : Slider -> Slider :=
  fun this =>
    let screenWidth := width (getBoundingClientRect document_body) in
    request (map (fun slide => StyleWidth slide screenWidth)
                 (children (el this))) this.

Definition _translateFromOrigin (index : Z) (by_px : Q) : Slider -> Slider :=
  fun this =>
    let originX := originForIndex index in
    _translateSlide (by_px + originX)%Q this.

Definition _returnToOrigin : Slider -> Slider :=
  fun this =>
    let active_ := active (state this) in
    let origin := originForIndex active_ in
    _translateSlide origin this.

(** The handlers; [clientXY] is [[event.clientX, event.clientY]]. *)
Definition handleTouchStart (clientXY : Q * Q) : Slider -> Slider :=
  set_touchDown true ;;
  set_touchOrigin clientXY ;;
  _cssTouchClass true ;;
  (fun this =>
     emit (Touch (active (state this)) (children (el this))
                 (item (children (el this)) (active (state this)))) this).

Definition handleTouchEnd : Slider -> Slider :=
  (fun this =>
     let changeWeight := changeSlide (diffX (state this)) in
     updateIndex (active (state this) + changeWeight) this) ;;
  _cssTouchClass false ;;
  _returnToOrigin ;;
  setTimeout (300 + 100) ;;
  set_touchDown false ;;
  set_diffX 0.

Definition handleTouchMove (clientXY : Q * Q) : Slider -> Slider :=
  fun this =>
    if negb (touchDown this) then this
    else
      let movedTo := clientXY in
      let diffX_ := fst (diffCoords (touchOrigin this) movedTo) in
      let this := set_diffX diffX_ this in
      if Qeq_bool diffX_ 0 then this
      else _translateFromOrigin (active (state this)) diffX_ this.

Definition handleResize : Slider -> Slider := _setSlideWidths.

Definition constructor (el_ : Container) : Slider :=
  (_setSlideWidths ;;
   _cssActiveClass 0 ;;
   updateIndex 0 ;;
   emit (Init (item (children el_) 0) 0))
    {| el := el_;
       touchDown := false;
       state := {| slidesCount := Z.of_nat (List.length (children el_));
                   active := 0;
                   diffX := 0 |};
       touchOrigin := (0%Q, 0%Q);
       timers := 0;
       trace := [] |}.

End Document.

End BodySlider.

(** Unfolds the methods down to record expressions. *)
Ltac unfold_methods :=
  unfold handleTouchStart, handleTouchEnd, handleTouchMove, handleResize,
    timerCallback, setTimeout, _returnToOrigin, _translateFromOrigin,
    _translateSlide, _cssActiveClass, _cssTouchClass, _setSlideWidths,
    emit, Slider_.seq, request, set_touchDown, set_active, set_diffX,
    set_touchOrigin, set_timers, set_parentElement.

(** ** Geometry helpers: properties *)

Section Geometry.

Import Util.

Lemma Qlt_bool_iff (a b : Q) : Qlt_bool a b = true <-> (a < b)%Q.
Proof.
  unfold Qlt_bool. rewrite negb_true_iff.
  split.
  - intros H. apply Qnot_le_lt. intros Hle.
    apply Qle_bool_iff in Hle. congruence.
  - intros H. destruct (Qle_bool b a) eqn:E; [|reflexivity].
    apply Qle_bool_iff in E. exfalso. apply (Qlt_not_le _ _ H E).
Qed.

Lemma Qlt_bool_false (a b : Q) : Qlt_bool a b = false <-> (b <= a)%Q.
Proof.
  unfold Qlt_bool. rewrite negb_false_iff. apply Qle_bool_iff.
Qed.

Lemma changeSlideWith_range (t d : Q) (p : HostElement) :
  changeSlideWith t d p = 0 \/ changeSlideWith t d p = 1 \/
  changeSlideWith t d p = -1.
Proof.
  unfold changeSlideWith.
  destruct (Qeq_bool d 0); [now left|].
  destruct (Qle_bool _ 0); cbn; [|now left].
  destruct (Qlt_bool d 0); auto.
Qed.

Lemma changeSlideWith_zero (t d : Q) (p : HostElement) :
  (d == 0)%Q -> changeSlideWith t d p = 0.
Proof.
  intros H. unfold changeSlideWith.
  now rewrite (Qeq_eq_bool _ _ H).
Qed.

End Geometry.

(** ** The decision on binary64 numbers *)

Section Rounding64.

Import SpecFloat FloatOps.

Lemma digits2_pos_bounds (p : positive) :
  2 ^ (Zpos (digits2_pos p) - 1) <= Zpos p < 2 ^ Zpos (digits2_pos p).
Proof.
  induction p as [p IH|p IH|]; cbn [digits2_pos].
  - rewrite Pos2Z.inj_succ, Z.pow_succ_r by lia.
    replace (Z.succ (Zpos (digits2_pos p)) - 1)
      with (Z.succ (Zpos (digits2_pos p) - 1)) by lia.
    rewrite Z.pow_succ_r by lia. lia.
  - rewrite Pos2Z.inj_succ, Z.pow_succ_r by lia.
    replace (Z.succ (Zpos (digits2_pos p)) - 1)
      with (Z.succ (Zpos (digits2_pos p) - 1)) by lia.
    rewrite Z.pow_succ_r by lia. lia.
  - cbn. lia.
Qed.

Lemma shr_1_m (mrs : shr_record) :
  0 <= shr_m mrs -> shr_m (shr_1 mrs) = shr_m mrs / 2.
Proof.
  destruct mrs as [m r s]. cbn [shr_m]. intros Hm.
  rewrite <- Z.div2_div.
  destruct m as [|[p|p|]|p]; cbn; try reflexivity; lia.
Qed.

Lemma iter_pos_shr_m (n : positive) :
  forall mrs : shr_record,
    0 <= shr_m mrs ->
    shr_m (iter_pos shr_1 n mrs) = shr_m mrs / 2 ^ Zpos n.
Proof.
  induction n as [n IH|n IH|]; intros mrs Hm; cbn [iter_pos].
  - assert (0 <= shr_m (shr_1 mrs)) as H1
        by (rewrite shr_1_m by exact Hm; apply Z.div_pos; lia).
    assert (0 <= shr_m (iter_pos shr_1 n (shr_1 mrs))) as H2
        by (rewrite IH by exact H1; apply Z.div_pos; lia).
    rewrite IH, IH, shr_1_m by assumption.
    rewrite !Z.div_div by lia.
    f_equal. replace (Zpos n~1) with (Zpos n + Zpos n + 1) by lia.
    rewrite !Z.pow_add_r by lia. rewrite Z.pow_1_r. ring.
  - assert (0 <= shr_m (iter_pos shr_1 n mrs)) as H2
        by (rewrite IH by exact Hm; apply Z.div_pos; lia).
    rewrite IH, IH by assumption.
    rewrite !Z.div_div by lia.
    f_equal. replace (Zpos n~0) with (Zpos n + Zpos n) by lia.
    now rewrite Z.pow_add_r by lia.
  - rewrite shr_1_m by exact Hm. reflexivity.
Qed.

(** Rounding a positive mantissa at an exponent that is not below the
    least one keeps it positive. *)
Lemma shr_fexp_pos (p : positive) (e : Z) (l : location) :
  emin64 <= e ->
  0 < shr_m (fst (shr_fexp prec emax (Zpos p) e l)) /\
  emin64 <= snd (shr_fexp prec emax (Zpos p) e l).
Proof.
  intros He. unfold shr_fexp, shr, fexp. cbn [Zdigits2].
  pose proof (digits2_pos_bounds p) as [Hlo _].
  set (d := Zpos (digits2_pos p)) in *.
  assert (shr_m (shr_record_of_loc (Zpos p) l) = Zpos p) as Hm
      by (destruct l as [|[]]; reflexivity).
  destruct (Z.max (d + e - prec) emin64 - e) as [|k|k] eqn:Ek;
    cbn [fst snd]; rewrite ?Hm; try (split; lia).
  rewrite iter_pos_shr_m by (rewrite Hm; lia). rewrite Hm.
  assert (Zpos k = d - prec) as Hk by lia.
  split; [|lia].
  apply Z.div_str_pos. split; [apply Z.pow_pos_nonneg; lia|].
  apply Z.le_trans with (2 ^ (d - 1)); [|exact Hlo].
  apply Z.pow_le_mono_r; [lia|]. rewrite Hk. unfold prec. lia.
Qed.

Lemma round_nearest_even_pos (m : Z) (l : location) :
  0 < m -> 0 < round_nearest_even m l.
Proof.
  intros Hm. destruct l as [|[]]; cbn; try lia.
  destruct (Z.even m); lia.
Qed.

(** The result of rounding a mantissa other than zero carries the sign
    it was given, and is neither a zero nor NaN. *)
Lemma binary_round_aux_signed (s : bool) (p : positive) (e : Z) (l : location) :
  emin64 <= e -> signed s (binary_round_aux prec emax s (Zpos p) e l).
Proof.
  intros He. unfold binary_round_aux.
  destruct (shr_fexp_pos p e l He) as [H1 H2].
  destruct (shr_fexp prec emax (Zpos p) e l) as [mrs' e'].
  cbn [fst snd] in H1, H2.
  pose proof (round_nearest_even_pos _ (loc_of_shr_record mrs') H1) as Hr.
  destruct (round_nearest_even (shr_m mrs') (loc_of_shr_record mrs'))
    as [|q|q]; try lia.
  destruct (shr_fexp_pos q e' loc_Exact H2) as [H3 _].
  destruct (shr_fexp prec emax (Zpos q) e' loc_Exact) as [mrs'' e''].
  cbn [fst] in H3.
  destruct (shr_m mrs'') as [|m|m]; try lia.
  destruct (e'' <=? emax - prec).
  - left. now exists m, e''.
  - now right.
Qed.

Lemma iter_xO (m d : positive) :
  Zpos (Pos.iter xO m d) = Zpos m * 2 ^ Zpos d.
Proof.
  induction d as [|d IH] using Pos.peano_ind.
  - cbn. lia.
  - rewrite Pos.iter_succ, Pos2Z.inj_xO, IH, Pos2Z.inj_succ,
      Z.pow_succ_r by lia. lia.
Qed.

Lemma shl_align_spec (m : positive) (e e' : Z) :
  e' <= e ->
  Zpos (fst (shl_align m e e')) = Zpos m * 2 ^ (e - e') /\
  snd (shl_align m e e') = e'.
Proof.
  intros H. unfold shl_align.
  destruct (e' - e) as [|k|k] eqn:Ek; cbn [fst snd]; try lia.
  - assert (e = e') as -> by lia. rewrite Z.sub_diag. cbn. lia.
  - rewrite iter_xO. split; [|reflexivity].
    f_equal. f_equal. lia.
Qed.

Lemma binary_round_signed (s : bool) (m : positive) (e : Z) :
  emin64 <= e -> signed s (binary_round prec emax s m e).
Proof.
  intros He. unfold binary_round.
  destruct (shl_align m e (fexp prec emax (Zpos (digits2_pos m) + e)))
    as [mz ez] eqn:E.
  apply binary_round_aux_signed.
  assert (ez = snd (shl_align m e (fexp prec emax (Zpos (digits2_pos m) + e))))
    as -> by now rewrite E.
  unfold shl_align, fexp.
  destruct (Z.max (Zpos (digits2_pos m) + e - prec) emin64 - e)
    as [|k|k] eqn:Ek; cbn [snd]; lia.
Qed.


Lemma bounded_inv (m : positive) (e : Z) :
  bounded prec emax m e = true ->
  emin64 <= e /\ Zpos (digits2_pos m) <= prec /\
  (emin64 < e -> Zpos (digits2_pos m) = prec).
Proof.
  unfold bounded, canonical_mantissa, fexp. intros H.
  apply andb_true_iff in H. destruct H as [H _].
  apply Z.eqb_eq in H. lia.
Qed.

(** Aligned mantissas of two canonical numbers compare as the numbers
    do. *)
Lemma aligned_compare (mx my : positive) (ex ey : Z) :
  bounded prec emax mx ex = true ->
  bounded prec emax my ey = true ->
  (Zpos (fst (shl_align mx ex (Z.min ex ey)))
   ?= Zpos (fst (shl_align my ey (Z.min ex ey))))
  = match ex ?= ey with
    | Lt => Lt
    | Gt => Gt
    | Eq => Pos.compare_cont Eq mx my
    end.
Proof.
  intros Hx Hy.
  destruct (bounded_inv _ _ Hx) as (Hex & Hdx & Hnx).
  destruct (bounded_inv _ _ Hy) as (Hey & Hdy & Hny).
  destruct (shl_align_spec mx ex (Z.min ex ey)) as [-> _]; [lia|].
  destruct (shl_align_spec my ey (Z.min ex ey)) as [-> _]; [lia|].
  pose proof (digits2_pos_bounds mx) as [Hxl Hxu].
  pose proof (digits2_pos_bounds my) as [Hyl Hyu].
  destruct (Z.compare_spec ex ey) as [E|E|E].
  - subst ey. rewrite Z.min_id, Z.sub_diag, Z.pow_0_r, !Z.mul_1_r.
    reflexivity.
  - rewrite Z.min_l, Z.sub_diag, Z.pow_0_r, Z.mul_1_r by lia.
    apply Z.compare_lt_iff.
    rewrite (Hny ltac:(lia)) in Hyl.
    assert (Zpos mx < 2 ^ prec) as Hm.
    { eapply Z.lt_le_trans; [exact Hxu|]. apply Z.pow_le_mono_r; lia. }
    assert (2 ^ 1 <= 2 ^ (ey - ex)) as Hp by (apply Z.pow_le_mono_r; lia).
    assert (2 ^ prec = 2 ^ (prec - 1) * 2 ^ 1) as Hs
        by (rewrite <- Z.pow_add_r by (unfold prec; lia); f_equal; lia).
    rewrite Hs in Hm. nia.
  - rewrite Z.min_r, Z.sub_diag, Z.pow_0_r, Z.mul_1_r by lia.
    apply Z.compare_gt_iff.
    rewrite (Hnx ltac:(lia)) in Hxl.
    assert (Zpos my < 2 ^ prec) as Hm.
    { eapply Z.lt_le_trans; [exact Hyu|]. apply Z.pow_le_mono_r; lia. }
    assert (2 ^ 1 <= 2 ^ (ex - ey)) as Hp by (apply Z.pow_le_mono_r; lia).
    assert (2 ^ prec = 2 ^ (prec - 1) * 2 ^ 1) as Hs
        by (rewrite <- Z.pow_add_r by (unfold prec; lia); f_equal; lia).
    rewrite Hs in Hm. nia.
Qed.

Lemma signed_leb_zero (s : bool) (x : spec_float) :
  signed s x -> SFleb x (S754_zero false) = s.
Proof.
  intros [(m & e & ->)| ->]; destruct s; reflexivity.
Qed.

(** The sign of a difference is the order of its operands, unless both
    are the positive infinity. *)
Lemma SFsub_leb_zero (x y : spec_float) :
  valid_binary prec emax x = true ->
  valid_binary prec emax y = true ->
  SFabs y = y ->
  ~ (x = S754_infinity false /\ y = S754_infinity false) ->
  SFleb (SFsub prec emax x y) (S754_zero false) = SFleb x y.
Proof.
  intros Hx Hy Ha Hinf.
  destruct y as [sy|sy| |sy my ey]; cbn in Ha;
    try (injection Ha as <-); destruct x as [sx|sx| |sx mx ex];
    try reflexivity; try (destruct sx; reflexivity).
  - destruct sx; [reflexivity|].
    exfalso. apply Hinf. split; reflexivity.
  - cbn [SFsub valid_binary] in *.
    pose proof (aligned_compare mx my ex ey Hx Hy) as Hc.
    destruct (bounded_inv _ _ Hx) as (Hex & _).
    destruct (bounded_inv _ _ Hy) as (Hey & _).
    set (X := Zpos (fst (shl_align mx ex (Z.min ex ey)))) in *.
    set (Y := Zpos (fst (shl_align my ey (Z.min ex ey)))) in *.
    assert (0 < X) as HX by (unfold X; lia).
    assert (0 < Y) as HY by (unfold Y; lia).
    assert (emin64 <= Z.min ex ey) as Hz by lia.
    destruct sx; cbn [cond_Zopp].
    + destruct (- X - Y) as [|q|q] eqn:E; try lia.
      cbn [binary_normalize].
      rewrite (signed_leb_zero true) by (now apply binary_round_signed).
      reflexivity.
    + unfold SFleb at 2. cbn [SFcompare]. rewrite <- Hc.
      destruct (Z.compare_spec X Y) as [E|E|E];
        destruct (X - Y) as [|q|q] eqn:Eq; try lia; cbn [binary_normalize].
      * reflexivity.
      * now rewrite (signed_leb_zero true) by (now apply binary_round_signed).
      * now rewrite (signed_leb_zero false) by (now apply binary_round_signed).
Qed.

Lemma SFcompare_swap (x y : spec_float) :
  SFcompare y x = option_map CompOpp (SFcompare x y).
Proof.
  destruct x as [sx|sx| |sx mx ex], y as [sy|sy| |sy my ey];
    try reflexivity; try (destruct sx; reflexivity);
    try (destruct sy; reflexivity);
    try (destruct sx, sy; reflexivity).
  cbn. f_equal. rewrite (Z.compare_antisym ex ey).
  destruct sx, sy; try reflexivity;
    destruct (ex ?= ey); cbn; try reflexivity;
    now rewrite (Pos.compare_cont_antisym mx my Eq).
Qed.

End Rounding64.

Section Doubles.

Import SpecFloat FloatOps FloatAxioms PrimFloat.

Lemma Prim2SF_zero : Prim2SF 0%float = S754_zero false.
Proof. reflexivity. Qed.

Lemma Prim2SF_infinity : Prim2SF infinity = S754_infinity false.
Proof. reflexivity. Qed.

Lemma SFabs_idem (x : spec_float) : SFabs (SFabs x) = SFabs x.
Proof. now destruct x. Qed.

Lemma SFcompare_none (x y : spec_float) :
  x <> S754_nan -> y <> S754_nan -> SFcompare x y <> None.
Proof.
  intros Hx Hy.
  destruct x as [sx|sx| |sx mx ex], y as [sy|sy| |sy my ey];
    try discriminate; congruence.
Qed.

Lemma SFltb_true_leb (x y : spec_float) :
  SFltb y x = true -> SFleb x y = false.
Proof.
  unfold SFltb, SFleb. rewrite (SFcompare_swap y x).
  destruct (SFcompare y x) as [[]|]; cbn; congruence.
Qed.

Lemma SFltb_false_leb (x y : spec_float) :
  x <> S754_nan -> y <> S754_nan -> SFltb y x = false -> SFleb x y = true.
Proof.
  intros Hx Hy. pose proof (SFcompare_none y x Hy Hx) as Hn.
  unfold SFltb, SFleb. rewrite (SFcompare_swap y x).
  destruct (SFcompare y x) as [[]|]; cbn; congruence.
Qed.

Lemma SFltb_true_eqb (x y : spec_float) :
  SFltb x y = true -> SFeqb x y = false.
Proof.
  unfold SFltb, SFeqb. destruct (SFcompare x y) as [[]|]; congruence.
Qed.

Lemma SFltb_swap (x y : spec_float) :
  SFltb x y = true -> SFltb y x = false /\ SFeqb y x = false.
Proof.
  unfold SFltb, SFeqb. rewrite (SFcompare_swap x y).
  destruct (SFcompare x y) as [[]|]; cbn; split; congruence.
Qed.

Lemma SFltb_not_nan (x y : spec_float) :
  SFltb x y = true -> x <> S754_nan /\ y <> S754_nan.
Proof.
  unfold SFltb. destruct x, y; cbn; split; congruence.
Qed.

Lemma SFltb_infinity (y : spec_float) :
  SFltb (S754_infinity false) y = false.
Proof. destruct y as [| [] | |]; reflexivity. Qed.

Lemma is_nan_false (x : float) : is_nan x = false -> Prim2SF x <> S754_nan.
Proof.
  unfold is_nan. rewrite eqb_spec. intros H E. rewrite E in H. discriminate.
Qed.

Lemma is_infinity_false (x : float) :
  is_infinity x = false -> Prim2SF (abs x) <> S754_infinity false.
Proof.
  unfold is_infinity. rewrite eqb_spec, Prim2SF_infinity.
  intros H E. rewrite E in H. discriminate.
Qed.

(** [tolerance - Math.abs(xDiff) <= 0] is [tolerance <= Math.abs(xDiff)],
    unless both are [Infinity]. *)
Lemma sub_abs_leb_zero (tolerance xDiff : float) :
  ~ (Prim2SF tolerance = S754_infinity false /\
     Prim2SF (abs xDiff) = S754_infinity false) ->
  (tolerance - abs xDiff <=? 0)%float = (tolerance <=? abs xDiff)%float.
Proof.
  intros H. rewrite !leb_spec, sub_spec, Prim2SF_zero.
  apply SFsub_leb_zero; try apply Prim2SF_valid; [|exact H].
  rewrite abs_spec. apply SFabs_idem.
Qed.

End Doubles.

Section DecisionOnDoubles.

Import SpecFloat FloatOps FloatAxioms PrimFloat.

(** C1. For every drag [d], width [w] of the measured element and
    tolerance fraction [t], with [tolerance = w * t] as the program
    computes it: [changeSlide] returns [0] when [d] is zero; it returns
    [0] whenever [|d| < tolerance]; and otherwise, for a tolerance that is
    a number and a drag that is not infinite, it returns [+1] when
    [d < 0] and [-1] when [d > 0]. *)
Theorem changeSlide_decision (d t : float) (p : Binary64.HostElement) :
  let w := Binary64.width (Binary64.getBoundingClientRect p) in
  let tolerance := (w * t)%float in
  ((d =? 0)%float = true -> Binary64.changeSlideWith t d p = 0) /\
  ((abs d <? tolerance)%float = true -> Binary64.changeSlideWith t d p = 0) /\
  (is_nan tolerance = false -> is_infinity d = false ->
   (abs d <? tolerance)%float = false ->
   ((d <? 0)%float = true -> Binary64.changeSlideWith t d p = 1) /\
   ((0 <? d)%float = true -> Binary64.changeSlideWith t d p = -1)).
Proof.
  intros w tolerance. unfold Binary64.changeSlideWith. fold w tolerance.
  split; [now intros ->|]. split.
  - intros Hlt. destruct (d =? 0)%float; [reflexivity|].
    rewrite sub_abs_leb_zero.
    + rewrite ltb_spec in Hlt. rewrite leb_spec.
      now rewrite (SFltb_true_leb _ _ Hlt).
    + intros [_ E]. rewrite ltb_spec, E, SFltb_infinity in Hlt.
      discriminate.
  - intros Hn Hi Hlt.
    assert (Prim2SF d <> S754_nan ->
            (tolerance - abs d <=? 0)%float = true) as Ho.
    { intros Hd. rewrite sub_abs_leb_zero.
      - rewrite ltb_spec in Hlt. rewrite leb_spec.
        apply SFltb_false_leb; [now apply is_nan_false| |exact Hlt].
        rewrite abs_spec. now destruct (Prim2SF d).
      - intros [_ E]. now apply (is_infinity_false d Hi). }
    split; intros Hd; rewrite ltb_spec, Prim2SF_zero in Hd.
    + destruct (SFltb_not_nan _ _ Hd) as [Hnan _].
      rewrite (Ho Hnan), eqb_spec, ltb_spec,
        Prim2SF_zero, (SFltb_true_eqb _ _ Hd), Hd.
      reflexivity.
    + destruct (SFltb_not_nan _ _ Hd) as [_ Hnan].
      destruct (SFltb_swap _ _ Hd) as [Hl He].
      rewrite (Ho Hnan), eqb_spec, ltb_spec, Prim2SF_zero, He, Hl.
      reflexivity.
Qed.

(** On the boundary: a parent 3px wide and a drag of -0.99px, where the
    rounded product [3 * 0.33] equals [|d|]; the drag is committed. *)
Lemma changeSlide_decision_witness :
  Binary64.changeSlide Binary64.dragOnTheBoundary Binary64.parent3 = 1.
Proof.
  apply (changeSlide_decision Binary64.dragOnTheBoundary Binary64.toleranceFr
           Binary64.parent3); reflexivity.
Defined.

End DecisionOnDoubles.

(** C8. [originForIndex 0] is [0] for every width, and for every index
    [n >= 0] and width [w >= 0] the rest offset is [- n * w]. *)
Theorem originForIndex_contract (n : Z) (p : HostElement) :
  let w := width (getBoundingClientRect p) in
  Util.originForIndex 0 p = 0%Q /\
  (0 <= n -> (0 <= w)%Q -> (Util.originForIndex n p == - inject_Z n * w)%Q).
Proof.
  intros w. split; [reflexivity|].
  intros _ _. unfold Util.originForIndex. fold w.
  destruct (n =? 0) eqn:E.
  - apply Z.eqb_eq in E. subst n. cbn. ring.
  - ring.
Qed.

Lemma originForIndex_contract_witness :
  (Util.originForIndex 2 {| getBoundingClientRect := {| width := 300 # 1 |} |}
   == - inject_Z 2 * (300 # 1))%Q.
Proof.
  apply (originForIndex_contract 2
           {| getBoundingClientRect := {| width := 300 # 1 |} |}).
  - lia.
  - cbn. unfold Qle. cbn. lia.
Defined.

(** C9. [diffCoords] is antisymmetric, is zero on equal inputs, and a
    pointer that moved left of its origin has a negative x-delta. *)
Theorem diffCoords_antisym (a b : Q * Q) :
  Qeq2 (Util.diffCoords a b) (Qopp2 (Util.diffCoords b a)) /\
  Qeq2 (Util.diffCoords a a) (0%Q, 0%Q) /\
  ((fst b < fst a)%Q -> (fst (Util.diffCoords a b) < 0)%Q).
Proof.
  unfold Qeq2, Qopp2, Util.diffCoords; cbn [fst snd].
  repeat split; try ring.
  intros H. lra.
Qed.

Lemma diffCoords_antisym_witness :
  (fst (Util.diffCoords (100 # 1, 0) (40 # 1, 0)) < 0)%Q.
Proof.
  apply (diffCoords_antisym (100 # 1, 0%Q) (40 # 1, 0%Q)).
  cbn. unfold Qlt. cbn. lia.
Defined.

(** ** Properties of the Slider *)

Section SliderLemmas.

Lemma changeSlide_range (d : Q) (p : HostElement) :
  Util.changeSlide d p = 0 \/ Util.changeSlide d p = 1 \/
  Util.changeSlide d p = -1.
Proof. apply changeSlideWith_range. Qed.

Lemma changeSlide_zero (p : HostElement) : Util.changeSlide 0 p = 0.
Proof. reflexivity. Qed.

Lemma changes_app (a b : list Effect) :
  changes (a ++ b) = changes a ++ changes b.
Proof.
  induction a as [|e a IH]; [reflexivity|].
  destruct e as [[]| | | |]; cbn; now rewrite IH.
Qed.

Lemma translations_app (a b : list Effect) :
  translations (a ++ b) = translations a ++ translations b.
Proof.
  induction a as [|e a IH]; [reflexivity|].
  destruct e; cbn; now rewrite IH.
Qed.

(** Styling requests carry no notification. *)
Lemma changes_cssActiveClass (index i : Z) (slides : list Element) :
  changes (cssActiveClass_each index i slides) = [].
Proof.
  revert i. induction slides as [|e l IH]; intros i; [reflexivity|].
  cbn [cssActiveClass_each]. rewrite changes_app, IH.
  destruct (index =? i); reflexivity.
Qed.

Lemma changes_widths (px : Q) (slides : list Element) :
  changes (map (fun slide => StyleWidth slide px) slides) = [].
Proof.
  induction slides as [|e l IH]; [reflexivity|]. cbn. apply IH.
Qed.

(** After a trace that ends with the effects [es], the last of which
    that is a translation asks for [q], the transform is [q]. *)
Lemma styleTransform_app (tr es : list Effect) (qs : list Q) (q : Q) :
  translations es = qs ++ [q] ->
  styleTransform (tr ++ es) = Some q.
Proof.
  intros H. unfold styleTransform.
  rewrite translations_app, H, app_assoc, map_app. cbn.
  apply last_last.
Qed.

(** The guard of [updateIndex], by cases. *)
Lemma updateIndex_in (n : Z) (this : Slider) :
  0 <= n < slidesCount (state this) ->
  updateIndex n this =
    {| el := el this; touchDown := touchDown this;
       state := {| slidesCount := slidesCount (state this); active := n;
                   diffX := diffX (state this) |};
       touchOrigin := touchOrigin this; timers := timers this;
       trace := trace this
                  ++ [Emit (Change n (item (children (el this)) n))] |}.
Proof.
  intros H. unfold updateIndex.
  assert ((n <? 0) || (n >=? slidesCount (state this)) = false) as ->.
  { apply orb_false_iff. split; [apply Z.ltb_ge; lia|].
    rewrite Z.geb_leb. apply Z.leb_gt. lia. }
  reflexivity.
Qed.

Lemma updateIndex_out (n : Z) (this : Slider) :
  n < 0 \/ slidesCount (state this) <= n ->
  updateIndex n this = this.
Proof.
  intros H. unfold updateIndex.
  assert ((n <? 0) || (n >=? slidesCount (state this)) = true) as ->;
    [|reflexivity].
  apply orb_true_iff. destruct H as [H|H].
  - left. now apply Z.ltb_lt.
  - right. rewrite Z.geb_leb. now apply Z.leb_le.
Qed.

Lemma updateIndex_cases (n : Z) (this : Slider) :
  (0 <= n < slidesCount (state this)) \/
  (n < 0 \/ slidesCount (state this) <= n).
Proof. lia. Qed.

(** [updateIndex] touches [state.active] and the trace only. *)
Lemma updateIndex_frame (n : Z) (this : Slider) :
  el (updateIndex n this) = el this /\
  touchDown (updateIndex n this) = touchDown this /\
  slidesCount (state (updateIndex n this)) = slidesCount (state this) /\
  diffX (state (updateIndex n this)) = diffX (state this) /\
  touchOrigin (updateIndex n this) = touchOrigin this /\
  timers (updateIndex n this) = timers this.
Proof.
  destruct (updateIndex_cases n this) as [H|H].
  - rewrite (updateIndex_in _ _ H). cbn. tauto.
  - rewrite (updateIndex_out _ _ H). tauto.
Qed.

Lemma updateIndex_inBounds (n : Z) (this : Slider) :
  inBounds this -> inBounds (updateIndex n this).
Proof.
  intros Hb. destruct (updateIndex_cases n this) as [H|H].
  - rewrite (updateIndex_in _ _ H). unfold inBounds. cbn. exact H.
  - now rewrite (updateIndex_out _ _ H).
Qed.

(** The only assignment to [state.active] is the one in [updateIndex]. *)
Lemma step_active (op : Op) (this : Slider) :
  active (state (step op this)) =
    match requestedIndex op this with
    | Some m => active (state (updateIndex m this))
    | None => active (state this)
    end.
Proof.
  destruct op; cbn [step requestedIndex]; try reflexivity.
  - unfold handleTouchMove.
    destruct (negb (touchDown this)); [reflexivity|].
    cbv zeta. destruct (Qeq_bool _ 0); reflexivity.
  - destruct (timers this); [reflexivity|].
    unfold timerCallback, _cssActiveClass. cbn.
    destruct (touchDown this); reflexivity.
Qed.

Lemma step_slidesCount (op : Op) (this : Slider) :
  slidesCount (state (step op this)) = slidesCount (state this).
Proof.
  destruct op; cbn [step].
  - apply updateIndex_frame.
  - reflexivity.
  - unfold handleTouchMove.
    destruct (negb (touchDown this)); [reflexivity|].
    cbv zeta. destruct (Qeq_bool _ 0); reflexivity.
  - unfold_methods. cbn. apply updateIndex_frame.
  - reflexivity.
  - destruct (timers this); [reflexivity|].
    unfold timerCallback, _cssActiveClass. cbn.
    destruct (touchDown this); reflexivity.
Qed.

Lemma step_inBounds (op : Op) (this : Slider) :
  inBounds this -> inBounds (step op this).
Proof.
  intros Hb. unfold inBounds.
  rewrite step_slidesCount, step_active.
  destruct (requestedIndex op this) as [m|]; [|exact Hb].
  pose proof (updateIndex_inBounds m this Hb) as H.
  unfold inBounds in H.
  now rewrite (proj1 (proj2 (proj2 (updateIndex_frame m this)))) in H.
Qed.

Lemma run_inBounds (ops : list Op) (this : Slider) :
  inBounds this -> inBounds (run ops this).
Proof.
  revert this. induction ops as [|op ops IH]; intros this Hb; [exact Hb|].
  cbn. apply IH, step_inBounds, Hb.
Qed.

Lemma constructor_state (el_ : Container) :
  state (constructor el_) =
    {| slidesCount := Z.of_nat (List.length (children el_));
       active := 0; diffX := 0 |}.
Proof.
  unfold constructor, Slider_.seq, emit, request. cbn.
  match goal with |- context [updateIndex 0 ?s] =>
    destruct (updateIndex_cases 0 s) as [H|H];
    [rewrite (updateIndex_in _ _ H) | rewrite (updateIndex_out _ _ H)]
  end; reflexivity.
Qed.

End SliderLemmas.

(** C2. For [0 <= n < slidesCount], [updateIndex n] assigns [n] to
    [state.active], appends exactly one [change] notification carrying
    [n] and [el.children[n]] (the slide at [n] whenever [slidesCount] is
    the number of children) and leaves every other field alone; for [n]
    outside that range it returns the instance as it was.  Every
    operation leaves [state.active] alone unless it calls [updateIndex],
    and then [state.active] is what that call makes it. *)
Theorem updateIndex_guard (n : Z) (this : Slider) :
  (0 <= n < slidesCount (state this) ->
   updateIndex n this =
     {| el := el this; touchDown := touchDown this;
        state := {| slidesCount := slidesCount (state this); active := n;
                    diffX := diffX (state this) |};
        touchOrigin := touchOrigin this; timers := timers this;
        trace := trace this
                   ++ [Emit (Change n (item (children (el this)) n))] |} /\
   changes (trace (updateIndex n this)) =
     changes (trace this) ++ [(n, item (children (el this)) n)] /\
   (slidesCount (state this) = Z.of_nat (List.length (children (el this))) ->
    exists slide, item (children (el this)) n = Some slide /\
                  nth_error (children (el this)) (Z.to_nat n) = Some slide)) /\
  (n < 0 \/ slidesCount (state this) <= n -> updateIndex n this = this) /\
  (forall op : Op,
      active (state (step op this)) =
        match requestedIndex op this with
        | Some m => active (state (updateIndex m this))
        | None => active (state this)
        end).
Proof.
  split; [|split].
  - intros H. split; [now apply updateIndex_in|]. split.
    + rewrite (updateIndex_in _ _ H). cbn [trace].
      now rewrite changes_app.
    + intros Hc. unfold item.
      assert ((n <? 0) = false) as -> by (apply Z.ltb_ge; lia).
      destruct (nth_error (children (el this)) (Z.to_nat n)) as [slide|] eqn:E.
      * now exists slide.
      * apply nth_error_None in E. lia.
  - apply updateIndex_out.
  - intros op. apply step_active.
Qed.

Lemma updateIndex_guard_witness :
  active (state (updateIndex 2 (constructor threeSlides))) = 2 /\
  updateIndex 3 (constructor threeSlides) = constructor threeSlides.
Proof.
  pose proof (updateIndex_guard 2 (constructor threeSlides)) as [H2 _].
  pose proof (updateIndex_guard 3 (constructor threeSlides)) as [_ [H3 _]].
  split.
  - rewrite (proj1 (H2 ltac:(vm_compute; split; [discriminate|reflexivity]))).
    reflexivity.
  - apply H3. right. vm_compute. discriminate.
Defined.

(** C3, as the code has it.  An instance built over at least one slide
    keeps [0 <= active < slidesCount] through every sequence of
    operations: calls of [updateIndex], the three gesture handlers, window
    resizes and scheduled callbacks. *)
Theorem active_inBounds (el_ : Container) (this : Slider) (ops : list Op) :
  Slider_.new el_ = Normal this ->
  children el_ <> [] ->
  inBounds (run ops this).
Proof.
  intros Hnew Hne. injection Hnew as <-.
  apply run_inBounds. unfold inBounds.
  rewrite constructor_state. cbn.
  destruct (children el_); [contradiction|]. cbn [List.length]. lia.
Qed.

Lemma active_inBounds_witness :
  inBounds (run [TouchStart (MouseEvent (100 # 1) 0);
                 TouchMove (MouseEvent (-20 # 1) 0); TouchEnd; UpdateIndex 7]
                (constructor threeSlides)).
Proof.
  apply (active_inBounds threeSlides).
  - reflexivity.
  - discriminate.
Defined.

(** C3 as stated fails on a container without slides: construction
    completes, and the instance has [active = 0 = slidesCount]. *)
Lemma active_out_of_bounds_without_slides :
  Slider_.new noSlides = Normal (constructor noSlides) /\
  active (state (constructor noSlides)) = 0 /\
  slidesCount (state (constructor noSlides)) = 0 /\
  ~ inBounds (run [] (constructor noSlides)).
Proof.
  repeat split.
  unfold inBounds. cbn. lia.
Qed.

(** C5, as the code has it.  Construction completes normally on every
    container, with or without slides: [slidesCount] is the number of
    children, [active] is [0], no gesture is in progress, one [change]
    notification for index [0] is emitted if there is a slide and none
    otherwise, and the last effect is the [init] notification. *)
Theorem new_completes (el_ : Container) :
  exists this : Slider,
    Slider_.new el_ = Normal this /\
    state this = {| slidesCount := Z.of_nat (List.length (children el_));
                    active := 0; diffX := 0 |} /\
    touchDown this = false /\
    changes (trace this) =
      match children el_ with
      | [] => []
      | first :: _ => [(0, Some first)]
      end /\
    exists before, trace this = before ++ [Emit (Init (item (children el_) 0) 0)].
Proof.
  exists (constructor el_). split; [reflexivity|].
  split; [apply constructor_state|].
  unfold constructor, Slider_.seq, emit, _cssActiveClass, _setSlideWidths,
    request. cbn.
  match goal with |- context [updateIndex 0 ?s] =>
    destruct (updateIndex_cases 0 s) as [H|H];
    [rewrite (updateIndex_in _ _ H) | rewrite (updateIndex_out _ _ H)];
    cbn in H |- *
  end.
  - split; [reflexivity|]. split; [|eexists; reflexivity].
    rewrite !changes_app. cbn.
    destruct (children el_) as [|first rest]; [cbn in H; lia|].
    cbn [map changes app].
    now rewrite changes_widths, changes_cssActiveClass.
  - split; [reflexivity|]. split; [|eexists; reflexivity].
    destruct (children el_) as [|first rest]; [reflexivity|].
    cbn in H. lia.
Qed.

(** C5 as stated fails: on a container without slides, where index [0]
    is itself out of range, construction does not throw. *)
Lemma new_completes_without_slides :
  Slider_.new noSlides = Normal (constructor noSlides) /\
  Slider_.new noSlides <> Throw "InvalidState" /\
  slidesCount (state (constructor noSlides)) = 0 /\
  trace (constructor noSlides) = [Emit (Init None 0)].
Proof.
  repeat split. discriminate.
Qed.

Section Gestures.

(** Addition of pixel values commutes on the nose. *)
Lemma Qplus_comm_eq (a b : Q) : (a + b)%Q = (b + a)%Q.
Proof.
  unfold Qplus. f_equal; [apply Z.add_comm | apply Pos.mul_comm].
Qed.

(** [handleTouchEnd], after the call of [updateIndex] it starts with. *)
Lemma handleTouchEnd_eq (this : Slider) :
  let u := updateIndex
             (active (state this)
              + Util.changeSlide (diffX (state this))
                  (parentElement (el this))) this in
  handleTouchEnd this =
    {| el := el u; touchDown := false;
       state := {| slidesCount := slidesCount (state u);
                   active := active (state u); diffX := 0 |};
       touchOrigin := touchOrigin u; timers := S (timers u);
       trace := trace u
                  ++ [SetClass Track "touch" false;
                      Transform (Util.originForIndex (active (state u))
                                   (parentElement (el u)));
                      SetTimeout 400] |}.
Proof.
  intros u. unfold_methods. cbn. fold u.
  now rewrite <- !app_assoc.
Qed.

(** [handleTouchMove] while a gesture is in progress. *)
Lemma handleTouchMove_down (event : UIEvent) (this : Slider) :
  touchDown this = true ->
  let dx := fst (Util.diffCoords (touchOrigin this) (coords event)) in
  handleTouchMove event this =
    {| el := el this; touchDown := true;
       state := {| slidesCount := slidesCount (state this);
                   active := active (state this); diffX := dx |};
       touchOrigin := touchOrigin this; timers := timers this;
       trace := trace this
                  ++ (if Qeq_bool dx 0 then []
                      else [Transform
                              (dx + Util.originForIndex (active (state this))
                                      (parentElement (el this)))%Q]) |}.
Proof.
  intros Hd dx. unfold handleTouchMove. rewrite Hd. cbn [negb].
  cbv zeta. fold dx. destruct (Qeq_bool dx 0); unfold_methods; cbn.
  - now rewrite app_nil_r, Hd.
  - now rewrite Hd.
Qed.

End Gestures.

(** C4, as the code has it.  After one [handleTouchEnd] the drag is [0],
    so the decision of a second [handleTouchEnd] in a row is [0] and it
    leaves [state] as it was; but it still calls [updateIndex] with the
    current index, which emits one more [change] notification carrying
    that index unless the index is outside [0 .. slidesCount - 1]. *)
Theorem handleTouchEnd_twice (this : Slider) :
  let s1 := handleTouchEnd this in
  let s2 := handleTouchEnd s1 in
  let a := active (state s1) in
  Util.changeSlide (diffX (state s1)) (parentElement (el s1)) = 0 /\
  state s2 = state s1 /\
  changes (trace s2) =
    changes (trace s1)
      ++ (if (a <? 0) || (a >=? slidesCount (state s1)) then []
          else [(a, item (children (el s1)) a)]).
Proof.
  intros s1 s2 a.
  assert (diffX (state s1) = 0%Q) as Hd.
  { unfold s1. now rewrite handleTouchEnd_eq. }
  clearbody s1.
  split; [rewrite Hd; apply changeSlide_zero|].
  unfold s2. rewrite (handleTouchEnd_eq s1). cbv zeta.
  rewrite Hd, changeSlide_zero, Z.add_0_r. fold a.
  destruct (updateIndex_cases a s1) as [H|H].
  - rewrite (updateIndex_in _ _ H). cbn.
    assert ((a <? 0) || (a >=? slidesCount (state s1)) = false) as ->.
    { apply orb_false_iff. split; [apply Z.ltb_ge; lia|].
      rewrite Z.geb_leb. apply Z.leb_gt. lia. }
    split.
    + unfold a. destruct (state s1) as [sc ac dx]. cbn in Hd |- *.
      now rewrite Hd.
    + rewrite !changes_app. cbn. now rewrite app_nil_r.
  - rewrite (updateIndex_out _ _ H).
    assert ((a <? 0) || (a >=? slidesCount (state s1)) = true) as ->.
    { apply orb_true_iff. destruct H as [H|H].
      - left. now apply Z.ltb_lt.
      - right. rewrite Z.geb_leb. now apply Z.leb_le. }
    split.
    + unfold a. destruct (state s1) as [sc ac dx]. cbn in Hd |- *.
      now rewrite Hd.
    + cbn [trace]. rewrite changes_app. cbn. now rewrite !app_nil_r.
Qed.

(** C4 as stated fails: on three slides, after a gesture that advanced
    to slide [1] and ended, a second [handleTouchEnd] keeps index [1] and
    emits another [change] notification for it. *)
Lemma handleTouchEnd_twice_emits_change :
  let s1 := run [TouchStart (MouseEvent (100 # 1) 0);
                 TouchMove (MouseEvent (-20 # 1) 0);
                 TouchEnd] (constructor threeSlides) in
  let s2 := handleTouchEnd s1 in
  active (state s1) = 1 /\
  active (state s2) = 1 /\
  changes (trace s1) = [(0, Some (Node 0)); (1, Some (Node 1))] /\
  changes (trace s2) =
    [(0, Some (Node 0)); (1, Some (Node 1)); (1, Some (Node 1))] /\
  changes (trace s2) <> changes (trace s1).
Proof.
  vm_compute. repeat split. discriminate.
Qed.

(** C6. When the index decided at the end of a gesture is out of bounds,
    [handleTouchEnd] leaves [state.active] alone and emits no [change]
    notification; it still removes the [touch] class, translates the
    track to the origin of the active slide, schedules the restyling, and
    resets the drag and the touch flag. *)
Theorem handleTouchEnd_out_of_bounds (this : Slider) :
  let n := active (state this)
           + Util.changeSlide (diffX (state this)) (parentElement (el this)) in
  n < 0 \/ slidesCount (state this) <= n ->
  let this' := handleTouchEnd this in
  let origin :=
    Util.originForIndex (active (state this)) (parentElement (el this)) in
  active (state this') = active (state this) /\
  changes (trace this') = changes (trace this) /\
  trace this' = trace this ++ [SetClass Track "touch" false;
                               Transform origin; SetTimeout 400] /\
  styleTransform (trace this') = Some origin /\
  diffX (state this') = 0%Q /\
  touchDown this' = false.
Proof.
  intros n H this' origin. unfold this'.
  rewrite handleTouchEnd_eq. cbv zeta. fold n.
  rewrite (updateIndex_out _ _ H). cbn. fold origin.
  repeat split.
  - rewrite changes_app. cbn. now rewrite app_nil_r.
  - now apply styleTransform_app with (qs := []).
Qed.

Lemma handleTouchEnd_out_of_bounds_witness :
  let last_slide :=
    run [UpdateIndex 2; TouchStart (MouseEvent (100 # 1) 0);
         TouchMove (MouseEvent (-20 # 1) 0)] (constructor threeSlides) in
  Util.changeSlide (diffX (state last_slide)) (parentElement (el last_slide)) = 1 /\
  active (state (handleTouchEnd last_slide)) = 2 /\
  styleTransform (trace (handleTouchEnd last_slide)) = Some (-600 # 1)%Q.
Proof.
  intros last_slide.
  pose proof (handleTouchEnd_out_of_bounds last_slide) as H.
  cbv zeta in H.
  destruct H as (Ha & _ & _ & Ht & _).
  - right. vm_compute. discriminate.
  - split; [reflexivity|]. split.
    + rewrite Ha. reflexivity.
    + rewrite Ht. reflexivity.
Defined.

(** C7. [handleTouchMove] returns at once while no gesture is in
    progress.  Otherwise it stores the x-delta [dx] of [diffCoords] from
    the gesture origin to the sample in [state.diffX], requests nothing
    when [dx] is zero, and otherwise requests the translation of the
    track to the origin of the active slide plus [dx].  In particular,
    on a 300px-wide parent with slide [0] active, a gesture that starts at
    (100,0) and moves to (40,0) has [diffX = -60], and ending it leaves
    slide [0] active with the track at offset [0]. *)
Theorem handleTouchMove_spec (event : UIEvent) (this : Slider) :
  let dx := fst (Util.diffCoords (touchOrigin this) (coords event)) in
  let moved := handleTouchMove event this in
  let origin :=
    Util.originForIndex (active (state this)) (parentElement (el this)) in
  (touchDown this = false -> moved = this) /\
  (touchDown this = true ->
   diffX (state moved) = dx /\
   active (state moved) = active (state this) /\
   ((dx == 0)%Q -> trace moved = trace this) /\
   (~ (dx == 0)%Q -> trace moved = trace this ++ [Transform (origin + dx)%Q])) /\
  (forall start sample : UIEvent,
      coords start = (100 # 1, 0)%Q ->
      coords sample = (40 # 1, 0)%Q ->
      width (getBoundingClientRect (parentElement (el this))) = (300 # 1)%Q ->
      active (state this) = 0 ->
      let dragged := handleTouchMove sample (handleTouchStart start this) in
      diffX (state dragged) = (-60 # 1)%Q /\
      active (state (handleTouchEnd dragged)) = 0 /\
      styleTransform (trace (handleTouchEnd dragged)) = Some 0%Q).
Proof.
  intros dx moved origin. split; [|split].
  - intros Hd. unfold moved, handleTouchMove. now rewrite Hd.
  - intros Hd. unfold moved. rewrite (handleTouchMove_down _ _ Hd).
    cbv zeta. fold dx origin. cbn [state trace diffX active]. repeat split.
    + intros Hz. rewrite (Qeq_eq_bool _ _ Hz). apply app_nil_r.
    + intros Hz. destruct (Qeq_bool dx 0) eqn:E.
      * apply Qeq_bool_iff in E. contradiction.
      * now rewrite (Qplus_comm_eq origin dx).
  - clear dx moved origin. intros start sample Hs Hm Hw Ha dragged.
    assert (touchDown (handleTouchStart start this) = true) as Hd
        by reflexivity.
    assert (dragged =
            {| el := el this; touchDown := true;
               state := {| slidesCount := slidesCount (state this);
                           active := 0; diffX := (-60 # 1)%Q |};
               touchOrigin := (100 # 1, 0)%Q; timers := timers this;
               trace := (trace this
                           ++ [SetClass Track "touch" true;
                               Emit (Touch 0 (children (el this))
                                           (item (children (el this)) 0))])
                          ++ [Transform ((-60 # 1)
                                         + Util.originForIndex 0
                                             (parentElement (el this)))%Q] |})
      as ->.
    { unfold dragged. rewrite (handleTouchMove_down _ _ Hd).
      unfold handleTouchStart. unfold_methods. cbn. rewrite Hs, Hm, Ha.
      cbn. rewrite <- !app_assoc. reflexivity. }
    split; [reflexivity|].
    rewrite handleTouchEnd_eq. cbv zeta. cbn [state el active diffX].
    assert (Util.changeSlide (-60 # 1) (parentElement (el this)) = 0) as ->.
    { unfold Util.changeSlide, Util.changeSlideWith. now rewrite Hw. }
    match goal with |- context [updateIndex (0 + 0) ?s] =>
      destruct (updateIndex_cases (0 + 0) s) as [H|H];
      [rewrite (updateIndex_in _ _ H) | rewrite (updateIndex_out _ _ H)]
    end; cbn; (split; [reflexivity|]);
      now apply styleTransform_app with (qs := []).
Qed.

Lemma handleTouchMove_spec_witness :
  let dragged :=
    handleTouchMove (MouseEvent (40 # 1) 0)
      (handleTouchStart (MouseEvent (100 # 1) 0) (constructor threeSlides)) in
  diffX (state dragged) = (-60 # 1)%Q /\
  active (state (handleTouchEnd dragged)) = 0 /\
  styleTransform (trace (handleTouchEnd dragged)) = Some 0%Q.
Proof.
  apply (handleTouchMove_spec (MouseEvent 0 0) (constructor threeSlides));
    reflexivity.
Defined.

(** ** Independence of the vertical coordinate *)

Section Vertical.

Lemma sameButY_refl (s : Slider) : sameButY s s.
Proof. unfold sameButY. tauto. Qed.

Lemma handleTouchStart_sameButY (e e' : UIEvent) (s s' : Slider) :
  sameX e e' -> sameButY s s' ->
  sameButY (handleTouchStart e s) (handleTouchStart e' s').
Proof.
  unfold sameX, sameButY. intros He (H1 & H2 & H3 & H4 & H5 & H6).
  unfold handleTouchStart. unfold_methods. cbn.
  rewrite H1, H3, H5, H6, He. tauto.
Qed.

Lemma handleTouchMove_sameButY (e e' : UIEvent) (s s' : Slider) :
  sameX e e' -> sameButY s s' ->
  sameButY (handleTouchMove e s) (handleTouchMove e' s').
Proof.
  unfold sameX. intros He Hs.
  destruct (touchDown s) eqn:Hd.
  - assert (touchDown s' = true) as Hd'.
    { destruct Hs as (_ & <- & _). exact Hd. }
    rewrite (handleTouchMove_down _ _ Hd), (handleTouchMove_down _ _ Hd').
    destruct Hs as (H1 & H2 & H3 & H4 & H5 & H6).
    unfold sameButY, Util.diffCoords. cbn.
    rewrite H1, H3, H4, H5, H6, He. tauto.
  - assert (touchDown s' = false) as Hd'.
    { destruct Hs as (_ & <- & _). exact Hd. }
    unfold handleTouchMove. now rewrite Hd, Hd'.
Qed.

Lemma handleTouchEnd_sameButY (s s' : Slider) :
  sameButY s s' ->
  state (handleTouchEnd s) = state (handleTouchEnd s') /\
  trace (handleTouchEnd s) = trace (handleTouchEnd s').
Proof.
  intros (H1 & H2 & H3 & H4 & H5 & H6).
  rewrite !handleTouchEnd_eq. cbv zeta. rewrite <- H1, <- H3.
  set (n := active (state s) + _).
  destruct (updateIndex_cases n s) as [H|H].
  - rewrite (updateIndex_in n s H).
    rewrite (updateIndex_in n s') by (now rewrite <- H3).
    cbn. now rewrite <- H1, <- H3, <- H6.
  - rewrite (updateIndex_out n s H).
    rewrite (updateIndex_out n s') by (now rewrite <- H3).
    cbn. now rewrite <- H1, <- H3, <- H6.
Qed.

Lemma moves_sameButY (moves moves' : list UIEvent) :
  Forall2 sameX moves moves' ->
  forall s s' : Slider, sameButY s s' ->
    sameButY (run (map TouchMove moves) s) (run (map TouchMove moves') s').
Proof.
  induction 1 as [|e e' l l' He _ IH]; intros s s' Hs; [exact Hs|].
  cbn. apply IH. now apply handleTouchMove_sameButY.
Qed.

End Vertical.

(** C10. The y-coordinates of the samples of a gesture have no effect:
    two gestures from the same instance whose starts and samples agree
    on every x-coordinate leave the same [state] (the same drag and the
    same active index) and the same trace (the same translations and
    notifications) before the end of the gesture, decide the same step,
    and leave the same state and trace after it. *)
Theorem gesture_ignores_y (this : Slider) (start start' : UIEvent)
        (moves moves' : list UIEvent) :
  sameX start start' ->
  Forall2 sameX moves moves' ->
  let d := run (gesture start moves) this in
  let d' := run (gesture start' moves') this in
  state d = state d' /\
  trace d = trace d' /\
  Util.changeSlide (diffX (state d)) (parentElement (el d))
  = Util.changeSlide (diffX (state d')) (parentElement (el d')) /\
  state (handleTouchEnd d) = state (handleTouchEnd d') /\
  trace (handleTouchEnd d) = trace (handleTouchEnd d') /\
  translations (trace (handleTouchEnd d))
  = translations (trace (handleTouchEnd d')).
Proof.
  intros Hs Hm d d'.
  assert (sameButY d d') as H.
  { unfold d, d', gesture. cbn.
    apply moves_sameButY; [exact Hm|].
    apply handleTouchStart_sameButY; [exact Hs|apply sameButY_refl]. }
  destruct (handleTouchEnd_sameButY _ _ H) as [He1 He2].
  destruct H as (H1 & H2 & H3 & H4 & H5 & H6).
  rewrite H1, H3, H6, He1, He2. tauto.
Qed.

Lemma gesture_ignores_y_witness :
  let d := run (gesture (MouseEvent (100 # 1) 0)
                        [MouseEvent (40 # 1) (7 # 1); MouseEvent (-20 # 1) (9 # 2)])
               (constructor threeSlides) in
  let d' := run (gesture (TouchEvent (100 # 1, 55 # 1) [])
                         [MouseEvent (40 # 1) 0; MouseEvent (-20 # 1) (-3 # 1)])
                (constructor threeSlides) in
  state (handleTouchEnd d) = state (handleTouchEnd d') /\
  trace (handleTouchEnd d) = trace (handleTouchEnd d').
Proof.
  intros d d'.
  pose proof (gesture_ignores_y (constructor threeSlides)
                (MouseEvent (100 # 1) 0) (TouchEvent (100 # 1, 55 # 1) [])
                [MouseEvent (40 # 1) (7 # 1); MouseEvent (-20 # 1) (9 # 2)]
                [MouseEvent (40 # 1) 0; MouseEvent (-20 # 1) (-3 # 1)]) as H.
  cbv zeta in H. fold d d' in H.
  destruct H as (_ & _ & _ & Hs & Ht & _).
  - reflexivity.
  - repeat constructor.
  - split; assumption.
Defined.

(** * Further properties of the code *)

(** ** Geometry helpers *)

Section Decision.

Import Util.

Lemma Qle_bool_false (a b : Q) : Qle_bool a b = false <-> (b < a)%Q.
Proof.
  split.
  - intros H. apply Qnot_le_lt. intros Hle.
    apply Qle_bool_iff in Hle. congruence.
  - intros H. destruct (Qle_bool a b) eqn:E; [|reflexivity].
    apply Qle_bool_iff in E. exfalso. apply (Qlt_not_le _ _ H E).
Qed.

(** The decision once the tolerance is reached. *)
Lemma changeSlideWith_commit (t d : Q) (p : HostElement) :
  ~ (d == 0)%Q ->
  (width (getBoundingClientRect p) * t <= Qabs d)%Q ->
  changeSlideWith t d p = if Qlt_bool d 0 then 1 else -1.
Proof.
  intros Hd Ht. unfold changeSlideWith.
  destruct (Qeq_bool d 0) eqn:E; [apply Qeq_bool_iff in E; contradiction|].
  assert (Qle_bool (width (getBoundingClientRect p) * t - Qabs d) 0 = true)
    as -> by (apply Qle_bool_iff; lra).
  reflexivity.
Qed.

(** The decision below the tolerance. *)
Lemma changeSlideWith_stay (t d : Q) (p : HostElement) :
  (Qabs d < width (getBoundingClientRect p) * t)%Q ->
  changeSlideWith t d p = 0.
Proof.
  intros Ht. unfold changeSlideWith.
  destruct (Qeq_bool d 0); [reflexivity|].
  assert (Qle_bool (width (getBoundingClientRect p) * t - Qabs d) 0 = false)
    as -> by (apply Qle_bool_false; lra).
  reflexivity.
Qed.

(** A decision other than [0] was taken at or over the tolerance. *)
Lemma changeSlideWith_nonzero (t d : Q) (p : HostElement) :
  changeSlideWith t d p <> 0 ->
  ~ (d == 0)%Q /\ (width (getBoundingClientRect p) * t <= Qabs d)%Q.
Proof.
  intros H. split.
  - intros Hd. apply H. now apply changeSlideWith_zero.
  - apply Qnot_lt_le. intros Hlt. apply H. now apply changeSlideWith_stay.
Qed.

Lemma Qlt_bool_opp (d : Q) :
  ~ (d == 0)%Q -> Qlt_bool (- d) 0 = negb (Qlt_bool d 0).
Proof.
  intros Hd. destruct (Qlt_bool d 0) eqn:E; cbn.
  - apply Qlt_bool_iff in E. apply Qlt_bool_false. lra.
  - apply Qlt_bool_false in E. apply Qlt_bool_iff.
    destruct (Qlt_le_dec 0 d) as [H|H]; [lra|].
    exfalso. apply Hd. lra.
Qed.

Lemma changeSlide_body_eq (d : Q) (body : HostElement) :
  BodySlider.changeSlide body d = changeSlide_body d body.
Proof. reflexivity. Qed.

End Decision.

(** X1. The decision is odd in the drag: the mirrored drag gets the
    opposite decision, whatever the width and the tolerance. *)
Theorem changeSlide_odd (t d : Q) (p : HostElement) :
  Util.changeSlideWith t (- d) p = - Util.changeSlideWith t d p.
Proof.
  destruct (Qeq_dec d 0) as [Hz|Hz].
  - rewrite !changeSlideWith_zero; [reflexivity|exact Hz|lra].
  - destruct (Qlt_le_dec (Qabs d) (width (getBoundingClientRect p) * t))
      as [Hlt|Hle].
    + rewrite !changeSlideWith_stay; [reflexivity|exact Hlt|].
      now rewrite Qabs_opp.
    + rewrite !changeSlideWith_commit;
        [|exact Hz|exact Hle|lra|now rewrite Qabs_opp].
      rewrite (Qlt_bool_opp _ Hz).
      destruct (Util.Qlt_bool d 0); reflexivity.
Qed.

(** X2. The copy of [changeSlide] in the page-width slider (tolerance
    0.15) is at least as sensitive as the one of [src/util.js] (0.33):
    on an element of nonnegative width, every drag that the latter
    commits gets the same decision from the former. *)
Theorem changeSlide_body_more_sensitive (d : Q) (p : HostElement) :
  (0 <= width (getBoundingClientRect p))%Q ->
  Util.changeSlide d p <> 0 ->
  BodySlider.changeSlide p d = Util.changeSlide d p.
Proof.
  intros Hw Hc. rewrite changeSlide_body_eq.
  unfold Util.changeSlide, Util.changeSlide_body in *.
  destruct (changeSlideWith_nonzero _ _ _ Hc) as [Hz Hle].
  rewrite !changeSlideWith_commit; try assumption; [reflexivity|].
  unfold Util.toleranceFr in Hle.
  set (w := width (getBoundingClientRect p)) in *.
  assert (w * (15 # 100) <= w * (33 # 100))%Q; [|lra].
  rewrite !(Qmult_comm w). apply Qmult_le_compat_r; [|exact Hw].
  unfold Qle. cbn. lia.
Qed.

Lemma changeSlide_body_more_sensitive_witness :
  BodySlider.changeSlide parent300 (-120 # 1) = 1.
Proof.
  rewrite (changeSlide_body_more_sensitive (-120 # 1) parent300).
  - reflexivity.
  - unfold Qle. cbn. lia.
  - vm_compute. discriminate.
Defined.

(** X3. On a parent without width (hidden or detached, so that the
    tolerance is not positive) every drag other than [0] is committed:
    forward when it is negative, back when it is positive. *)
Theorem changeSlide_without_width (d : Q) (p : HostElement) :
  (width (getBoundingClientRect p) <= 0)%Q ->
  ~ (d == 0)%Q ->
  Util.changeSlide d p = if Util.Qlt_bool d 0 then 1 else -1.
Proof.
  intros Hw Hd. apply changeSlideWith_commit; [exact Hd|].
  pose proof (Qabs_nonneg d). unfold Util.toleranceFr. lra.
Qed.

Lemma changeSlide_without_width_witness :
  Util.changeSlide (1 # 10) {| getBoundingClientRect := {| width := 0 |} |}
  = -1.
Proof.
  rewrite (changeSlide_without_width
             (1 # 10) {| getBoundingClientRect := {| width := 0 |} |}).
  - reflexivity.
  - unfold Qle. cbn. lia.
  - intros H. unfold Qeq in H. cbn in H. lia.
Defined.

(** ** The instance over its lifetime *)

Section Lifetime.

Lemma guard_true_iff (n count : Z) :
  (n <? 0) || (n >=? count) = true <-> n < 0 \/ count <= n.
Proof.
  rewrite orb_true_iff, Z.ltb_lt, Z.geb_leb, Z.leb_le. tauto.
Qed.

Lemma guard_false_iff (n count : Z) :
  (n <? 0) || (n >=? count) = false <-> 0 <= n < count.
Proof.
  rewrite orb_false_iff, Z.ltb_ge, Z.geb_leb, Z.leb_gt. tauto.
Qed.

Lemma updateIndex_changes (n : Z) (this : Slider) :
  changes (trace (updateIndex n this))
  = changes (trace this) ++ changeOf n this.
Proof.
  unfold changeOf.
  destruct ((n <? 0) || (n >=? slidesCount (state this))) eqn:E.
  - apply guard_true_iff in E. rewrite (updateIndex_out _ _ E).
    now rewrite app_nil_r.
  - apply guard_false_iff in E. rewrite (updateIndex_in _ _ E).
    cbn [trace]. now rewrite changes_app.
Qed.

Lemma updateIndex_translations (n : Z) (this : Slider) :
  translations (trace (updateIndex n this)) = translations (trace this).
Proof.
  destruct (updateIndex_cases n this) as [H|H].
  - rewrite (updateIndex_in _ _ H). cbn [trace].
    rewrite translations_app. cbn. apply app_nil_r.
  - now rewrite (updateIndex_out _ _ H).
Qed.

Lemma translations_cssActiveClass (index i : Z) (slides : list Element) :
  translations (cssActiveClass_each index i slides) = [].
Proof.
  revert i. induction slides as [|e l IH]; intros i; [reflexivity|].
  cbn [cssActiveClass_each]. rewrite translations_app, IH.
  destruct (index =? i); reflexivity.
Qed.

Lemma translations_widths (px : Q) (slides : list Element) :
  translations (map (fun slide => StyleWidth slide px) slides) = [].
Proof.
  induction slides as [|e l IH]; [reflexivity|]. cbn. apply IH.
Qed.

(** The [change] notifications of one operation. *)
Lemma step_changes (op : Op) (this : Slider) :
  changes (trace (step op this))
  = changes (trace this)
      ++ match requestedIndex op this with
         | Some m => changeOf m this
         | None => []
         end.
Proof.
  destruct op; cbn [step requestedIndex].
  - apply updateIndex_changes.
  - unfold handleTouchStart. unfold_methods. cbn [trace].
    rewrite !changes_app. cbn. now rewrite !app_nil_r.
  - unfold handleTouchMove.
    destruct (negb (touchDown this)); [now rewrite app_nil_r|].
    cbv zeta. destruct (Qeq_bool _ 0); unfold_methods; cbn [trace].
    + now rewrite app_nil_r.
    + rewrite changes_app. cbn. now rewrite !app_nil_r.
  - rewrite handleTouchEnd_eq. cbv zeta. cbn [trace].
    rewrite changes_app, updateIndex_changes. cbn. now rewrite app_nil_r.
  - unfold_methods. cbn [trace el children].
    now rewrite changes_app, changes_widths.
  - destruct (timers this); [now rewrite app_nil_r|].
    unfold timerCallback. unfold_methods. cbn.
    destruct (touchDown this); cbn; [now rewrite app_nil_r|].
    now rewrite changes_app, changes_cssActiveClass.
Qed.

Lemma step_children (op : Op) (this : Slider) :
  children (el (step op this)) = children (el this).
Proof.
  destruct op; cbn [step].
  - now rewrite (proj1 (updateIndex_frame _ _)).
  - reflexivity.
  - unfold handleTouchMove.
    destruct (negb (touchDown this)); [reflexivity|].
    cbv zeta. destruct (Qeq_bool _ 0); reflexivity.
  - rewrite handleTouchEnd_eq. cbv zeta. cbn [el].
    now rewrite (proj1 (updateIndex_frame _ _)).
  - reflexivity.
  - destruct (timers this); [reflexivity|].
    unfold timerCallback. unfold_methods. cbn.
    destruct (touchDown this); reflexivity.
Qed.

Lemma run_children (ops : list Op) (this : Slider) :
  children (el (run ops this)) = children (el this).
Proof.
  revert this. induction ops as [|op ops IH]; intros this; [reflexivity|].
  cbn. now rewrite IH, step_children.
Qed.

Lemma run_slidesCount (ops : list Op) (this : Slider) :
  slidesCount (state (run ops this)) = slidesCount (state this).
Proof.
  revert this. induction ops as [|op ops IH]; intros this; [reflexivity|].
  cbn. now rewrite IH, step_slidesCount.
Qed.

(** The instance just before the constructor calls [updateIndex(0)]. *)
Lemma constructor_eq (el_ : Container) :
  exists before : Slider,
    constructor el_ = emit (Init (item (children el_) 0) 0)
                           (updateIndex 0 before) /\
    el before = el_ /\ touchDown before = false /\
    state before = {| slidesCount := Z.of_nat (List.length (children el_));
                      active := 0; diffX := 0 |} /\
    touchOrigin before = (0%Q, 0%Q) /\ timers before = O /\
    trace before =
      map (fun slide =>
             StyleWidth slide (width (getBoundingClientRect (parentElement el_))))
          (children el_)
        ++ cssActiveClass_each 0 0 (children el_).
Proof.
  eexists. split; [reflexivity|]. cbn. tauto.
Qed.

Lemma constructor_el (el_ : Container) : el (constructor el_) = el_.
Proof.
  destruct (constructor_eq el_) as (b & -> & Hel & _).
  unfold emit, request. cbn [el].
  now rewrite (proj1 (updateIndex_frame _ _)).
Qed.

Lemma step_idleClean (op : Op) (this : Slider) :
  idleClean this -> idleClean (step op this).
Proof.
  unfold idleClean. intros H.
  destruct op; cbn [step].
  - destruct (updateIndex_frame n this) as (_ & -> & _ & -> & _). exact H.
  - cbn. discriminate.
  - unfold handleTouchMove.
    destruct (touchDown this) eqn:E; cbn [negb]; [|now rewrite E].
    cbv zeta. destruct (Qeq_bool _ 0); unfold_methods; cbn;
      rewrite E; discriminate.
  - rewrite handleTouchEnd_eq. reflexivity.
  - exact H.
  - destruct (timers this); [exact H|].
    unfold timerCallback. unfold_methods. cbn.
    destruct (touchDown this); cbn; exact H.
Qed.

Lemma run_idleClean (ops : list Op) (this : Slider) :
  idleClean this -> idleClean (run ops this).
Proof.
  revert this. induction ops as [|op ops IH]; intros this H; [exact H|].
  cbn. apply IH, step_idleClean, H.
Qed.

Lemma constructor_idleClean (el_ : Container) : idleClean (constructor el_).
Proof.
  intros _. now rewrite constructor_state.
Qed.

Lemma changeOf_namesSlide (n : Z) (this : Slider) :
  slidesCount (state this) = Z.of_nat (List.length (children (el this))) ->
  Forall (namesSlide (children (el this))) (changeOf n this).
Proof.
  intros Hc. unfold changeOf.
  destruct ((n <? 0) || (n >=? slidesCount (state this))) eqn:E;
    [constructor|].
  apply guard_false_iff in E. constructor; [|constructor].
  unfold namesSlide, item. cbn [fst snd].
  assert ((n <? 0) = false) as -> by (apply Z.ltb_ge; lia).
  split; [lia|].
  destruct (nth_error (children (el this)) (Z.to_nat n)) as [slide|] eqn:En.
  - now exists slide.
  - apply nth_error_None in En. lia.
Qed.

End Lifetime.

(** X6. The slides are fixed at construction: whatever happens to an
    instance afterwards, its container has the children it was built
    over and [slidesCount] is their number. *)
Theorem slides_fixed (el_ : Container) (ops : list Op) :
  children (el (run ops (constructor el_))) = children el_ /\
  slidesCount (state (run ops (constructor el_)))
  = Z.of_nat (List.length (children el_)).
Proof.
  rewrite run_children, run_slidesCount, constructor_el, constructor_state.
  split; reflexivity.
Qed.

(** X7. Every [change] notification an instance ever emits, during
    construction or after it, carries an index within the slides and the
    slide at that index, never [undefined]. *)
Theorem change_names_a_slide (el_ : Container) (ops : list Op) :
  Forall (namesSlide (children el_))
         (changes (trace (run ops (constructor el_)))).
Proof.
  assert (forall ops this,
             children (el this) = children el_ ->
             slidesCount (state this) = Z.of_nat (List.length (children el_)) ->
             Forall (namesSlide (children el_)) (changes (trace this)) ->
             Forall (namesSlide (children el_)) (changes (trace (run ops this))))
    as Hrun.
  { clear ops. induction ops as [|op ops IH]; intros this Hc Hn Hf; [exact Hf|].
    cbn. apply IH.
    - now rewrite step_children.
    - now rewrite step_slidesCount.
    - rewrite step_changes. apply Forall_app. split; [exact Hf|].
      destruct (requestedIndex op this); [|constructor].
      rewrite <- Hc. apply changeOf_namesSlide. now rewrite Hc. }
  apply Hrun.
  - now rewrite constructor_el.
  - now rewrite constructor_state.
  - destruct (constructor_eq el_) as (b & -> & Hel & _ & Hst & _ & _ & Htr).
    unfold emit, request. cbn [trace].
    rewrite changes_app, updateIndex_changes, Htr, changes_app,
      changes_widths, changes_cssActiveClass.
    cbn. rewrite app_nil_r. rewrite <- Hel at 1.
    apply changeOf_namesSlide. now rewrite Hst, Hel.
Qed.

(** X8. Between gestures nothing is dragged: in every state an instance
    can reach, [touchDown = false] implies [state.diffX = 0]. *)
Theorem idle_drag_is_zero (el_ : Container) (ops : list Op) :
  touchDown (run ops (constructor el_)) = false ->
  diffX (state (run ops (constructor el_))) = 0%Q.
Proof.
  apply run_idleClean, constructor_idleClean.
Qed.

Lemma idle_drag_is_zero_witness :
  diffX (state (run [TouchStart (MouseEvent (100 # 1) 0);
                     TouchMove (MouseEvent (40 # 1) 0); TouchEnd]
                    (constructor threeSlides))) = 0%Q.
Proof.
  apply (idle_drag_is_zero threeSlides). reflexivity.
Defined.

(** X9. A press released without a move never changes the slide: from
    any reachable state without a gesture in progress, [handleTouchStart]
    followed at once by [handleTouchEnd] keeps [state.active] and leaves
    the track at the origin of that slide. *)
Theorem tap_keeps_slide (el_ : Container) (ops : list Op) (event : UIEvent) :
  let this := run ops (constructor el_) in
  touchDown this = false ->
  let released := handleTouchEnd (handleTouchStart event this) in
  active (state released) = active (state this) /\
  styleTransform (trace released)
  = Some (Util.originForIndex (active (state this)) (parentElement (el this))).
Proof.
  intros this Hidle released.
  pose proof (run_idleClean ops _ (constructor_idleClean el_) Hidle) as Hd.
  fold this in Hd. clearbody this. unfold released.
  rewrite handleTouchEnd_eq. cbv zeta.
  change (state (handleTouchStart event this)) with (state this).
  change (el (handleTouchStart event this)) with (el this).
  rewrite Hd, changeSlide_zero, Z.add_0_r.
  set (started := handleTouchStart event this).
  assert (active (state started) = active (state this)) as Ha by reflexivity.
  assert (el started = el this) as He by reflexivity.
  cbn [state active trace].
  assert (active (state (updateIndex (active (state this)) started))
          = active (state this)) as Hu.
  { destruct (updateIndex_cases (active (state this)) started) as [H|H].
    - now rewrite (updateIndex_in _ _ H).
    - now rewrite (updateIndex_out _ _ H). }
  split; [exact Hu|].
  rewrite Hu, (proj1 (updateIndex_frame _ _)), He.
  now apply styleTransform_app with (qs := []).
Qed.

Lemma tap_keeps_slide_witness :
  let this := run [UpdateIndex 1] (constructor threeSlides) in
  active (state (handleTouchEnd
                   (handleTouchStart (MouseEvent (100 # 1) 0) this))) = 1.
Proof.
  intros this.
  pose proof (tap_keeps_slide threeSlides [UpdateIndex 1]
                (MouseEvent (100 # 1) 0)) as H.
  cbv zeta in H. fold this in H.
  destruct H as [Ha _]; [reflexivity|].
  rewrite Ha. reflexivity.
Defined.

(** ** The end of a gesture and the samples before it *)

Section GestureEnd.

(** [handleTouchEnd] when the index it decides on is within the slides. *)
Lemma handleTouchEnd_in_range (this : Slider) :
  let n := active (state this)
           + Util.changeSlide (diffX (state this)) (parentElement (el this)) in
  0 <= n < slidesCount (state this) ->
  active (state (handleTouchEnd this)) = n /\
  changes (trace (handleTouchEnd this))
  = changes (trace this) ++ [(n, item (children (el this)) n)] /\
  styleTransform (trace (handleTouchEnd this))
  = Some (Util.originForIndex n (parentElement (el this))).
Proof.
  intros n H. rewrite handleTouchEnd_eq. cbv zeta. fold n.
  rewrite (updateIndex_in _ _ H). cbn [state active el trace].
  repeat split.
  - rewrite !changes_app. cbn. now rewrite app_nil_r.
  - rewrite <- app_assoc. now apply styleTransform_app with (qs := []).
Qed.

Lemma updateIndex_active_near (this : Slider) (k : Z) :
  -1 <= k <= 1 ->
  -1 <= active (state (updateIndex (active (state this) + k) this))
        - active (state this) <= 1.
Proof.
  intros Hk.
  destruct (updateIndex_cases (active (state this) + k) this) as [H|H].
  - rewrite (updateIndex_in _ _ H). cbn. lia.
  - rewrite (updateIndex_out _ _ H). lia.
Qed.

End GestureEnd.

(** X10. However a gesture ends, [handleTouchEnd] leaves the instance
    settled: no gesture in progress, no drag, one more callback
    scheduled, the slide at most one position away from where it was,
    and the track translated to the origin of the slide that is now
    active. *)
Theorem handleTouchEnd_settles (this : Slider) :
  let ended := handleTouchEnd this in
  touchDown ended = false /\
  diffX (state ended) = 0%Q /\
  timers ended = S (timers this) /\
  -1 <= active (state ended) - active (state this) <= 1 /\
  styleTransform (trace ended)
  = Some (Util.originForIndex (active (state ended)) (parentElement (el ended))).
Proof.
  intros ended. unfold ended. rewrite handleTouchEnd_eq. cbv zeta.
  cbn [touchDown state diffX timers active el trace].
  repeat split.
  - f_equal. apply updateIndex_frame.
  - apply updateIndex_active_near.
    destruct (changeSlide_range (diffX (state this)) (parentElement (el this)))
      as [-> | [-> | ->]]; lia.
  - apply updateIndex_active_near.
    destruct (changeSlide_range (diffX (state this)) (parentElement (el this)))
      as [-> | [-> | ->]]; lia.
  - now apply styleTransform_app with (qs := []).
Qed.

(** X11. A drag at or over the tolerance (0.33 of the parent width)
    moves exactly one slide when there is one to move to: a negative drag
    makes the next slide active, a positive drag the previous one; one
    [change] notification names the new slide, and the track is
    translated to its origin. *)
Theorem handleTouchEnd_commits (this : Slider) :
  let d := diffX (state this) in
  let parent := parentElement (el this) in
  let a := active (state this) in
  let ended := handleTouchEnd this in
  (width (getBoundingClientRect parent) * Util.toleranceFr <= Qabs d)%Q ->
  ((d < 0)%Q -> 0 <= a + 1 < slidesCount (state this) ->
   active (state ended) = a + 1 /\
   changes (trace ended)
   = changes (trace this) ++ [(a + 1, item (children (el this)) (a + 1))] /\
   styleTransform (trace ended) = Some (Util.originForIndex (a + 1) parent)) /\
  ((0 < d)%Q -> 0 <= a - 1 < slidesCount (state this) ->
   active (state ended) = a - 1 /\
   changes (trace ended)
   = changes (trace this) ++ [(a - 1, item (children (el this)) (a - 1))] /\
   styleTransform (trace ended) = Some (Util.originForIndex (a - 1) parent)).
Proof.
  intros d parent a ended Ht.
  pose proof (handleTouchEnd_in_range this) as Hin. cbv zeta in Hin.
  fold d parent a ended in Hin.
  split; intros Hd Ha.
  - assert (Util.changeSlide d parent = 1) as Hc.
    { unfold Util.changeSlide. rewrite changeSlideWith_commit; [|lra|exact Ht].
      apply Qlt_bool_iff in Hd. now rewrite Hd. }
    rewrite Hc in Hin. now apply Hin.
  - assert (Util.changeSlide d parent = -1) as Hc.
    { unfold Util.changeSlide. rewrite changeSlideWith_commit; [|lra|exact Ht].
      assert (Util.Qlt_bool d 0 = false) as ->; [|reflexivity].
      apply Qlt_bool_false. lra. }
    rewrite Hc in Hin. now apply Hin.
Qed.

Lemma handleTouchEnd_commits_witness :
  let dragged := run [TouchStart (MouseEvent (100 # 1) 0);
                      TouchMove (MouseEvent (-20 # 1) 0)]
                     (constructor threeSlides) in
  active (state (handleTouchEnd dragged)) = 1 /\
  styleTransform (trace (handleTouchEnd dragged)) = Some (-300 # 1)%Q.
Proof.
  intros dragged.
  pose proof (handleTouchEnd_commits dragged) as H. cbv zeta in H.
  destruct H as [H _].
  - vm_compute. discriminate.
  - destruct H as (Ha & _ & Ht).
    + vm_compute. reflexivity.
    + vm_compute. split; [discriminate|reflexivity].
    + rewrite Ha, Ht. split; reflexivity.
Defined.

(** X12. Samples do not accumulate: after two samples in a row the
    state is the one the second sample alone would have left, and when
    the second sample is off the gesture origin so is the translation of
    the track. *)
Theorem handleTouchMove_last_wins (e1 e2 : UIEvent) (this : Slider) :
  let once := handleTouchMove e2 this in
  let twice := handleTouchMove e2 (handleTouchMove e1 this) in
  state twice = state once /\
  touchOrigin twice = touchOrigin once /\
  touchDown twice = touchDown once /\
  (touchDown this = true ->
   ~ (fst (Util.diffCoords (touchOrigin this) (coords e2)) == 0)%Q ->
   styleTransform (trace twice) = styleTransform (trace once)).
Proof.
  intros once twice. unfold once, twice. clear once twice.
  destruct (touchDown this) eqn:Hd.
  - pose proof (handleTouchMove_down e1 this Hd) as H1. cbv zeta in H1.
    set (m1 := handleTouchMove e1 this) in *.
    assert (touchDown m1 = true) as Hd1 by (rewrite H1; reflexivity).
    rewrite (handleTouchMove_down e2 m1 Hd1), (handleTouchMove_down e2 this Hd).
    cbv zeta. rewrite H1. cbn [state touchOrigin touchDown active el
                                 slidesCount trace].
    repeat split. intros _ Hz.
    destruct (Qeq_bool (fst (Util.diffCoords (touchOrigin this) (coords e2))) 0)
      eqn:E; [apply Qeq_bool_iff in E; exfalso; apply Hz; exact E|].
    match goal with
    | |- styleTransform (?tr ++ [Transform ?q])
         = styleTransform (?tr' ++ [Transform ?q']) =>
        rewrite (styleTransform_app tr [Transform q] [] q eq_refl),
          (styleTransform_app tr' [Transform q'] [] q' eq_refl)
    end.
    reflexivity.
  - unfold handleTouchMove. rewrite Hd. cbn [negb]. rewrite Hd. cbn [negb].
    repeat split. exact Hd.
Qed.

Lemma handleTouchMove_last_wins_witness :
  let started := handleTouchStart (MouseEvent (100 # 1) 0)
                                  (constructor threeSlides) in
  styleTransform
    (trace (handleTouchMove (MouseEvent (40 # 1) 0)
              (handleTouchMove (MouseEvent (-20 # 1) 0) started)))
  = Some (-60 # 1)%Q.
Proof.
  intros started.
  pose proof (handleTouchMove_last_wins (MouseEvent (-20 # 1) 0)
                (MouseEvent (40 # 1) 0) started) as H.
  cbv zeta in H. destruct H as (_ & _ & _ & H).
  rewrite H.
  - reflexivity.
  - reflexivity.
  - intros E. unfold Qeq in E. vm_compute in E. discriminate.
Defined.

(** ** Styling and notifications *)

Section Styling.

Lemma item_tail (e : Element) (rest : list Element) (n : Z) :
  n <> 0 -> item (e :: rest) n = item rest (n - 1).
Proof.
  intros Hn. unfold item.
  destruct (n <? 0) eqn:E.
  - apply Z.ltb_lt in E.
    assert ((n - 1 <? 0) = true) as -> by (apply Z.ltb_lt; lia). reflexivity.
  - apply Z.ltb_ge in E.
    assert ((n - 1 <? 0) = false) as -> by (apply Z.ltb_ge; lia).
    replace (Z.to_nat n) with (S (Z.to_nat (n - 1))) by lia. reflexivity.
Qed.

Lemma item_negative (slides : list Element) (n : Z) :
  n < 0 -> item slides n = None.
Proof.
  intros Hn. unfold item.
  now assert ((n <? 0) = true) as -> by (apply Z.ltb_lt; lia).
Qed.

Lemma classAdded_app (name : string) (a b : list Effect) :
  classAdded name (a ++ b) = classAdded name a ++ classAdded name b.
Proof.
  induction a as [|e a IH]; [reflexivity|].
  destruct e as [| | on cls [|] | |]; cbn; try exact IH.
  destruct (String.eqb cls name); cbn; now rewrite IH.
Qed.

(** The slide that the loop of [_cssActiveClass] puts in view. *)
Lemma classAdded_inView (index i : Z) (slides : list Element) :
  classAdded "in-view" (cssActiveClass_each index i slides)
  = match item slides (index - i) with
    | Some e => [Slide e]
    | None => []
    end.
Proof.
  revert i. induction slides as [|e rest IH]; intros i.
  - cbn. unfold item. destruct (index - i <? 0); [reflexivity|].
    now destruct (Z.to_nat (index - i)).
  - cbn [cssActiveClass_each]. rewrite classAdded_app, IH.
    destruct (index =? i) eqn:E.
    + apply Z.eqb_eq in E. subst i.
      rewrite Z.sub_diag, item_negative by lia. reflexivity.
    + apply Z.eqb_neq in E.
      rewrite (item_tail e rest (index - i)) by lia.
      now replace (index - i - 1) with (index - (i + 1)) by lia.
Qed.

(** Every slide is put in view or out of view by the loop. *)
Lemma classAdded_total (index i : Z) (slides : list Element) :
  (List.length (classAdded "in-view" (cssActiveClass_each index i slides))
   + List.length (classAdded "not-in-view" (cssActiveClass_each index i slides))
   = List.length slides)%nat.
Proof.
  revert i. induction slides as [|e rest IH]; intros i; [reflexivity|].
  cbn [cssActiveClass_each]. rewrite !classAdded_app, !length_app.
  specialize (IH (i + 1)).
  destruct (index =? i); cbn in *; lia.
Qed.

Lemma classRemoved_app (name : string) (a b : list Effect) :
  classRemoved name (a ++ b) = classRemoved name a ++ classRemoved name b.
Proof.
  induction a as [|e a IH]; [reflexivity|].
  destruct e as [| | on cls [|] | |]; cbn; try exact IH.
  destruct (String.eqb cls name); cbn; now rewrite IH.
Qed.

Lemma withoutIndex_negative (n : Z) (slides : list Element) :
  n < 0 -> withoutIndex n slides = slides.
Proof.
  revert n. induction slides as [|e rest IH]; intros n Hn; [reflexivity|].
  cbn [withoutIndex].
  assert ((n =? 0) = false) as -> by (apply Z.eqb_neq; lia).
  now rewrite IH by lia.
Qed.

(** The slides that the loop of [_cssActiveClass] puts out of view. *)
Lemma classAdded_notInView (index i : Z) (slides : list Element) :
  classAdded "not-in-view" (cssActiveClass_each index i slides)
  = map Slide (withoutIndex (index - i) slides).
Proof.
  revert i. induction slides as [|e rest IH]; intros i; [reflexivity|].
  cbn [cssActiveClass_each withoutIndex]. rewrite classAdded_app, IH.
  destruct (index =? i) eqn:E.
  - apply Z.eqb_eq in E. subst i. rewrite Z.sub_diag. cbn.
    now rewrite withoutIndex_negative by lia.
  - apply Z.eqb_neq in E.
    assert ((index - i =? 0) = false) as -> by (apply Z.eqb_neq; lia).
    cbn. now replace (index - (i + 1)) with (index - i - 1) by lia.
Qed.

(** The classes that the loop of [_cssActiveClass] takes away. *)
Lemma classRemoved_inView (index i : Z) (slides : list Element) :
  classRemoved "in-view" (cssActiveClass_each index i slides)
  = map Slide (withoutIndex (index - i) slides).
Proof.
  revert i. induction slides as [|e rest IH]; intros i; [reflexivity|].
  cbn [cssActiveClass_each withoutIndex]. rewrite classRemoved_app, IH.
  destruct (index =? i) eqn:E.
  - apply Z.eqb_eq in E. subst i. rewrite Z.sub_diag. cbn.
    now rewrite withoutIndex_negative by lia.
  - apply Z.eqb_neq in E.
    assert ((index - i =? 0) = false) as -> by (apply Z.eqb_neq; lia).
    cbn. now replace (index - (i + 1)) with (index - i - 1) by lia.
Qed.

Lemma classRemoved_notInView (index i : Z) (slides : list Element) :
  classRemoved "not-in-view" (cssActiveClass_each index i slides)
  = match item slides (index - i) with
    | Some e => [Slide e]
    | None => []
    end.
Proof.
  revert i. induction slides as [|e rest IH]; intros i.
  - cbn. unfold item. destruct (index - i <? 0); [reflexivity|].
    now destruct (Z.to_nat (index - i)).
  - cbn [cssActiveClass_each]. rewrite classRemoved_app, IH.
    destruct (index =? i) eqn:E.
    + apply Z.eqb_eq in E. subst i.
      rewrite Z.sub_diag, item_negative by lia. reflexivity.
    + apply Z.eqb_neq in E.
      rewrite (item_tail e rest (index - i)) by lia.
      now replace (index - i - 1) with (index - (i + 1)) by lia.
Qed.

(** The loop makes two requests for each slide. *)
Lemma cssActiveClass_each_length (index i : Z) (slides : list Element) :
  List.length (cssActiveClass_each index i slides)
  = (2 * List.length slides)%nat.
Proof.
  revert i. induction slides as [|e rest IH]; intros i; [reflexivity|].
  cbn [cssActiveClass_each]. rewrite length_app, IH.
  destruct (index =? i); cbn; lia.
Qed.

Lemma classAdded_widths (name : string) (px : Q) (slides : list Element) :
  classAdded name (map (fun slide => StyleWidth slide px) slides) = [].
Proof.
  induction slides as [|e l IH]; [reflexivity|]. cbn. apply IH.
Qed.

Lemma touches_app (a b : list Effect) :
  touches (a ++ b) = touches a ++ touches b.
Proof.
  induction a as [|e a IH]; [reflexivity|].
  destruct e as [[]| | | |]; cbn; now rewrite IH.
Qed.

Lemma touches_cssActiveClass (index i : Z) (slides : list Element) :
  touches (cssActiveClass_each index i slides) = [].
Proof.
  revert i. induction slides as [|e l IH]; intros i; [reflexivity|].
  cbn [cssActiveClass_each]. rewrite touches_app, IH.
  destruct (index =? i); reflexivity.
Qed.

Lemma touches_widths (px : Q) (slides : list Element) :
  touches (map (fun slide => StyleWidth slide px) slides) = [].
Proof.
  induction slides as [|e l IH]; [reflexivity|]. cbn. apply IH.
Qed.

Lemma updateIndex_touches (n : Z) (this : Slider) :
  touches (trace (updateIndex n this)) = touches (trace this).
Proof.
  destruct (updateIndex_cases n this) as [H|H].
  - rewrite (updateIndex_in _ _ H). cbn [trace].
    rewrite touches_app. cbn. apply app_nil_r.
  - now rewrite (updateIndex_out _ _ H).
Qed.

End Styling.

(** X13. [_cssActiveClass(index)] does nothing while a gesture is in
    progress.  Otherwise it makes two requests for each slide and no
    other: on the slide at [index] (if [index] is a position) it adds
    [in-view] and removes [not-in-view], and on every other slide, in
    order, it adds [not-in-view] and removes [in-view]; it emits no
    [change] notification and requests no translation. *)
Theorem cssActiveClass_marks_one (index : Z) (this : Slider) :
  (touchDown this = true -> _cssActiveClass index this = this) /\
  (touchDown this = false ->
   exists requests : list Effect,
     _cssActiveClass index this = Slider_.request requests this /\
     classAdded "in-view" requests
     = match item (children (el this)) index with
       | Some slide => [Slide slide]
       | None => []
       end /\
     (List.length (classAdded "in-view" requests)
      + List.length (classAdded "not-in-view" requests)
      = List.length (children (el this)))%nat /\
     changes requests = [] /\ translations requests = [] /\
     classAdded "not-in-view" requests
     = map Slide (withoutIndex index (children (el this))) /\
     classRemoved "in-view" requests
     = map Slide (withoutIndex index (children (el this))) /\
     classRemoved "not-in-view" requests
     = match item (children (el this)) index with
       | Some slide => [Slide slide]
       | None => []
       end /\
     List.length requests = (2 * List.length (children (el this)))%nat).
Proof.
  unfold _cssActiveClass. split; intros ->; [reflexivity|].
  exists (cssActiveClass_each index 0 (children (el this))).
  split; [reflexivity|]. split.
  - now rewrite classAdded_inView, Z.sub_0_r.
  - split; [apply classAdded_total|].
    rewrite changes_cssActiveClass, translations_cssActiveClass,
      classAdded_notInView, classRemoved_inView, classRemoved_notInView,
      cssActiveClass_each_length, Z.sub_0_r.
    repeat split.
Qed.

Lemma cssActiveClass_marks_one_witness :
  classAdded "in-view" (trace (_cssActiveClass 1 (constructor threeSlides)))
  = classAdded "in-view" (trace (constructor threeSlides)) ++ [Slide (Node 1)] /\
  classAdded "not-in-view" (trace (_cssActiveClass 1 (constructor threeSlides)))
  = classAdded "not-in-view" (trace (constructor threeSlides))
      ++ [Slide (Node 0); Slide (Node 2)] /\
  _cssActiveClass 1 (handleTouchStart (MouseEvent 0 0) (constructor threeSlides))
  = handleTouchStart (MouseEvent 0 0) (constructor threeSlides).
Proof.
  pose proof (cssActiveClass_marks_one 1 (constructor threeSlides)) as [_ H].
  destruct H as (requests & -> & Hin & _ & _ & _ & Hout & _); [reflexivity|].
  cbn [trace Slider_.request]. rewrite !classAdded_app, Hin, Hout.
  repeat split.
Defined.

(** What each operation leaves alone. *)
Lemma step_quiet (op : Op) (this : Slider) :
  let next := step op this in
  match op with
  | TouchMove _ | TouchEnd => True
  | _ => translations (trace next) = translations (trace this)
         /\ diffX (state next) = diffX (state this)
  end /\
  match op with
  | UpdateIndex _ | TouchEnd => True
  | _ => changes (trace next) = changes (trace this)
         /\ active (state next) = active (state this)
  end /\
  match op with
  | TouchStart _ => True
  | _ => touches (trace next) = touches (trace this)
  end /\
  match op with
  | TouchEnd => True
  | _ => (timers next <= timers this)%nat
  end.
Proof.
  intros next. unfold next. clear next.
  destruct op; cbn [step].
  - repeat split; try apply updateIndex_translations;
      try apply updateIndex_touches; try apply updateIndex_frame.
    now rewrite (proj2 (proj2 (proj2 (proj2 (proj2 (updateIndex_frame _ _)))))).
  - repeat split; unfold handleTouchStart; unfold_methods; cbn [trace];
      rewrite ?translations_app, ?changes_app; cbn;
      rewrite ?app_nil_r; reflexivity || apply le_n.
  - unfold handleTouchMove.
    destruct (negb (touchDown this)); [repeat split; apply le_n|].
    cbv zeta. destruct (Qeq_bool _ 0); unfold_methods; cbn [trace];
      rewrite ?changes_app, ?touches_app; cbn;
      rewrite ?app_nil_r; repeat split; apply le_n.
  - rewrite handleTouchEnd_eq. cbv zeta. cbn [trace].
    rewrite touches_app, updateIndex_touches. cbn.
    now rewrite app_nil_r.
  - unfold_methods. cbn [trace el children state timers].
    rewrite translations_app, translations_widths, changes_app,
      changes_widths, touches_app, touches_widths, !app_nil_r.
    repeat split. apply le_n.
  - destruct (timers this) as [|k] eqn:Ek.
    + repeat split. rewrite Ek. apply le_n.
    + unfold timerCallback. unfold_methods. cbn.
      destruct (touchDown this); cbn;
        rewrite ?translations_app, ?translations_cssActiveClass,
          ?changes_app, ?changes_cssActiveClass, ?touches_app,
          ?touches_cssActiveClass, ?app_nil_r;
        repeat split; rewrite ?Ek; auto.
Qed.

(** X14. What a resize does and what the operations never do.  A
    resize measures the new parent and requests that width for every
    slide, and nothing else.  Only the ends and the samples of gestures
    translate the track or change the drag; only [updateIndex] and the
    ends of gestures emit [change] or change [state.active]; only the
    starts of gestures emit [touch]; only the ends of gestures schedule
    callbacks. *)
Theorem quiet_operations (op : Op) (this : Slider) :
  let next := step op this in
  match op with
  | TouchMove _ | TouchEnd => True
  | _ => translations (trace next) = translations (trace this)
         /\ diffX (state next) = diffX (state this)
  end /\
  match op with
  | UpdateIndex _ | TouchEnd => True
  | _ => changes (trace next) = changes (trace this)
         /\ active (state next) = active (state this)
  end /\
  match op with
  | TouchStart _ => True
  | _ => touches (trace next) = touches (trace this)
  end /\
  match op with
  | TouchEnd => True
  | _ => (timers next <= timers this)%nat
  end /\
  match op with
  | Resize parent =>
      trace next
      = trace this
          ++ map (fun slide =>
                    StyleWidth slide (width (getBoundingClientRect parent)))
                 (children (el this)) /\
      parentElement (el next) = parent /\
      state next = state this /\
      touchDown next = touchDown this
  | _ => True
  end.
Proof.
  intros next.
  destruct (step_quiet op this) as (H1 & H2 & H3 & H4).
  repeat (split; [assumption|]).
  destruct op; try exact I. repeat split.
Qed.

(** X15. Two calls of [updateIndex] in a row: the later index wins
    whenever it is within the slides, and is dropped otherwise. *)
Theorem updateIndex_twice (m n : Z) (this : Slider) :
  state (updateIndex m (updateIndex n this))
  = if (m <? 0) || (m >=? slidesCount (state this))
    then state (updateIndex n this)
    else state (updateIndex m this).
Proof.
  assert (slidesCount (state (updateIndex n this)) = slidesCount (state this))
    as Hc by apply updateIndex_frame.
  destruct ((m <? 0) || (m >=? slidesCount (state this))) eqn:E.
  - apply guard_true_iff in E.
    now rewrite (updateIndex_out m (updateIndex n this)) by (now rewrite Hc).
  - apply guard_false_iff in E.
    rewrite (updateIndex_in m (updateIndex n this)) by (now rewrite Hc).
    rewrite (updateIndex_in m this E). cbn [state].
    rewrite Hc. f_equal. apply updateIndex_frame.
Qed.

Section Construction.

Lemma updateIndex_trace (n : Z) (this : Slider) :
  trace (updateIndex n this)
  = trace this
      ++ map (fun c => Emit (Change (fst c) (snd c))) (changeOf n this).
Proof.
  unfold changeOf.
  destruct ((n <? 0) || (n >=? slidesCount (state this))) eqn:E.
  - apply guard_true_iff in E. rewrite (updateIndex_out _ _ E).
    now rewrite app_nil_r.
  - apply guard_false_iff in E. now rewrite (updateIndex_in _ _ E).
Qed.

Lemma classAdded_changes (name : string) (cs : list (Z * option Element)) :
  classAdded name (map (fun c => Emit (Change (fst c) (snd c))) cs) = [].
Proof.
  induction cs as [|c cs IH]; [reflexivity|]. cbn. apply IH.
Qed.

Lemma constructor_inBounds (el_ : Container) :
  children el_ <> [] -> inBounds (constructor el_).
Proof.
  intros Hne. unfold inBounds. rewrite constructor_state. cbn.
  destruct (children el_); [contradiction|]. cbn [List.length]. lia.
Qed.

End Construction.

(** X16. Construction sizes every slide to the width of the parent
    before anything else, puts the first slide, if there is one, in view
    and no other, and requests no translation of the track, no [touch]
    notification and no callback. *)
Theorem constructor_effects (el_ : Container) :
  let this := constructor el_ in
  (exists rest,
      trace this
      = map (fun slide =>
               StyleWidth slide
                 (width (getBoundingClientRect (parentElement el_))))
            (children el_) ++ rest) /\
  classAdded "in-view" (trace this)
  = match children el_ with
    | [] => []
    | first :: _ => [Slide first]
    end /\
  translations (trace this) = [] /\
  touches (trace this) = [] /\
  timers this = O /\
  touchOrigin this = (0%Q, 0%Q).
Proof.
  intros this. unfold this.
  destruct (constructor_eq el_) as (b & -> & Hel & _ & Hst & Ho & Hti & Htr).
  unfold emit, Slider_.request.
  cbn [trace timers touchOrigin].
  rewrite updateIndex_trace, Htr.
  destruct (updateIndex_frame 0 b) as (_ & _ & _ & _ & -> & ->).
  split; [eexists; rewrite <- !app_assoc; reflexivity|].
  split.
  - rewrite !classAdded_app, classAdded_widths, classAdded_inView,
      classAdded_changes. cbn.
    now destruct (children el_).
  - rewrite !translations_app, translations_widths,
      translations_cssActiveClass, !touches_app, touches_widths,
      touches_cssActiveClass.
    repeat split; try assumption; cbn;
      induction (changeOf 0 b); cbn; auto.
Qed.

(** X17. On an instance built over at least one slide, every start of a
    gesture emits exactly one [touch] notification, which carries the
    active index, all the slides and the active slide itself (never
    [undefined]); it records the sample as the origin of the gesture and
    leaves [state] alone. *)
Theorem touch_names_active_slide (el_ : Container) (ops : list Op)
        (event : UIEvent) :
  children el_ <> [] ->
  let this := run ops (constructor el_) in
  let started := handleTouchStart event this in
  exists slide : Element,
    nth_error (children el_) (Z.to_nat (active (state this))) = Some slide /\
    touches (trace started)
    = touches (trace this) ++ [(active (state this), children el_, Some slide)] /\
    touchDown started = true /\
    touchOrigin started = coords event /\
    state started = state this.
Proof.
  intros Hne this started.
  assert (inBounds this) as Hb
      by (apply run_inBounds, constructor_inBounds, Hne).
  assert (children (el this) = children el_) as Hc
      by (unfold this; now rewrite run_children, constructor_el).
  assert (slidesCount (state this) = Z.of_nat (List.length (children el_)))
    as Hn by (unfold this; now rewrite run_slidesCount, constructor_state).
  clearbody this. unfold inBounds in Hb. rewrite Hn in Hb.
  destruct (nth_error (children el_) (Z.to_nat (active (state this))))
    as [slide|] eqn:E; [|apply nth_error_None in E; lia].
  exists slide. split; [reflexivity|].
  unfold started, handleTouchStart. unfold_methods.
  cbn [trace touchDown touchOrigin state el].
  rewrite !touches_app, Hc. cbn. unfold item.
  assert ((active (state this) <? 0) = false) as ->
      by (apply Z.ltb_ge; lia).
  rewrite E, app_nil_r. repeat split.
Qed.

Lemma touch_names_active_slide_witness :
  touches (trace (handleTouchStart (MouseEvent (100 # 1) 0)
                    (run [UpdateIndex 2] (constructor threeSlides))))
  = [(2, [Node 0; Node 1; Node 2], Some (Node 2))].
Proof.
  destruct (touch_names_active_slide threeSlides [UpdateIndex 2]
              (MouseEvent (100 # 1) 0)) as (slide & Hs & Ht & _).
  - discriminate.
  - rewrite Ht. vm_compute in Hs. injection Hs as <-. reflexivity.
Defined.

(** ** The two classes side by side *)

(** X18. The page-width class and the parent-width class agree when the
    parent is the body: on mouse events their constructors, starts,
    samples and resizes give the same instance, and so do their ends of
    gestures whenever the two tolerances (0.15 and 0.33) lead to the same
    decision for the drag at hand. *)
Theorem BodySlider_agrees (this : Slider) (el_ : Container) (x y : Q) :
  let body := parentElement (el this) in
  BodySlider.constructor (parentElement el_) el_ = constructor el_ /\
  BodySlider.handleTouchStart (x, y) this
  = handleTouchStart (MouseEvent x y) this /\
  BodySlider.handleTouchMove body (x, y) this
  = handleTouchMove (MouseEvent x y) this /\
  BodySlider.handleResize body this = handleResize this /\
  (BodySlider.changeSlide body (diffX (state this))
   = Util.changeSlide (diffX (state this)) body ->
   BodySlider.handleTouchEnd body this = handleTouchEnd this).
Proof.
  intros body. repeat split.
  intros H. unfold BodySlider.handleTouchEnd, handleTouchEnd, Slider_.seq.
  fold body. rewrite H.
  set (n := active (state this) + Util.changeSlide (diffX (state this)) body).
  destruct (updateIndex_cases n this) as [Hn|Hn].
  - now rewrite (updateIndex_in _ _ Hn).
  - now rewrite (updateIndex_out _ _ Hn).
Qed.

Lemma BodySlider_agrees_witness :
  let dragged := run [TouchStart (MouseEvent (100 # 1) 0);
                      TouchMove (MouseEvent (-20 # 1) 0)]
                     (constructor threeSlides) in
  BodySlider.handleTouchEnd parent300 dragged = handleTouchEnd dragged.
Proof.
  intros dragged.
  apply (BodySlider_agrees dragged threeSlides 0 0).
  reflexivity.
Defined.

(** ** The deferred restyling *)

(** X19. The callback scheduled at the end of a gesture reads the
    active index when it runs, not when it was scheduled.  On an instance
    built over at least one slide with a callback pending: if it comes
    due while a gesture is in progress it is used up without any
    request; otherwise it adds [in-view] to the slide that is active at
    that moment and to no other, and [not-in-view] to every other slide,
    in order. *)
Theorem timer_marks_current_slide (el_ : Container) (ops : list Op) :
  children el_ <> [] ->
  let this := run ops (constructor el_) in
  (0 < timers this)%nat ->
  let after := step TimerDue this in
  timers after = Nat.pred (timers this) /\
  state after = state this /\
  (touchDown this = true -> trace after = trace this) /\
  (touchDown this = false ->
   exists (slide : Element) (requests : list Effect),
     nth_error (children el_) (Z.to_nat (active (state this))) = Some slide /\
     trace after = trace this ++ requests /\
     classAdded "in-view" requests = [Slide slide] /\
     (List.length (classAdded "not-in-view" requests)
      = Nat.pred (List.length (children el_)))%nat /\
     classAdded "not-in-view" requests
     = map Slide (withoutIndex (active (state this)) (children el_)) /\
     classRemoved "in-view" requests
     = map Slide (withoutIndex (active (state this)) (children el_)) /\
     classRemoved "not-in-view" requests = [Slide slide] /\
     List.length requests = (2 * List.length (children el_))%nat).
Proof.
  intros Hne this Ht after.
  assert (inBounds this) as Hb
      by (apply run_inBounds, constructor_inBounds, Hne).
  assert (children (el this) = children el_) as Hc
      by (unfold this; now rewrite run_children, constructor_el).
  assert (slidesCount (state this) = Z.of_nat (List.length (children el_)))
    as Hn by (unfold this; now rewrite run_slidesCount, constructor_state).
  unfold after. clearbody this. clear after.
  unfold inBounds in Hb. rewrite Hn in Hb.
  cbn [step]. destruct (timers this) as [|k] eqn:Ek; [lia|].
  unfold timerCallback, _cssActiveClass. unfold_methods.
  cbn [touchDown state el].
  destruct (touchDown this) eqn:Hd; cbn; repeat split;
    try (intros Hf; discriminate Hf).
  intros _.
  destruct (nth_error (children el_) (Z.to_nat (active (state this))))
    as [slide|] eqn:E; [|apply nth_error_None in E; lia].
  exists slide, (cssActiveClass_each (active (state this)) 0 (children el_)).
  split; [reflexivity|]. rewrite Hc. split; [reflexivity|].
  pose proof (classAdded_total (active (state this)) 0 (children el_)) as Hl.
  rewrite classRemoved_inView, classRemoved_notInView,
    cssActiveClass_each_length.
  rewrite classAdded_notInView, classAdded_inView, Z.sub_0_r in *.
  unfold item in *.
  assert ((active (state this) <? 0) = false) as Hz
      by (apply Z.ltb_ge; lia).
  rewrite Hz, E in *. cbn in Hl.
  repeat split. lia.
Qed.

Lemma timer_marks_current_slide_witness :
  let this := run [TouchEnd; UpdateIndex 2] (constructor threeSlides) in
  classAdded "in-view" (trace (step TimerDue this))
  = classAdded "in-view" (trace this) ++ [Slide (Node 2)] /\
  classAdded "not-in-view" (trace (step TimerDue this))
  = classAdded "not-in-view" (trace this) ++ [Slide (Node 0); Slide (Node 1)].
Proof.
  intros this.
  pose proof (timer_marks_current_slide threeSlides [TouchEnd; UpdateIndex 2])
    as H.
  cbv zeta in H. fold this in H.
  destruct H as (_ & _ & _ & H).
  - discriminate.
  - vm_compute. apply le_n.
  - destruct H as (slide & requests & Hs & -> & Hin & _ & Hout & _);
      [reflexivity|].
    rewrite !classAdded_app, Hin, Hout.
    vm_compute in Hs. injection Hs as <-. split; reflexivity.
Defined.
